(** * Session routing of the MCP SSE bridge

    A shallow embedding of [src/lib/redis.ts] (the shared-store client and
    its start-up configuration) and of [src/app/api/mcp/route.ts] (the
    process-local transport registry [activeTransports], the stream-open
    handler [GET], its teardown callback [onClose] and the call handler
    [POST]), followed by the properties of the session lifecycle that the
    design document states about them.

    Asynchronous calls are sequentialised: a promise either resolves or
    rejects, which is the [Completion] type; a detached call
    ([p.catch(log)]) is performed at the point where the source issues it. *)

From Stdlib Require Import ZArith String List Bool Lia.
From stdpp Require Import base option strings pretty gmap.
Import ListNotations.

Local Open Scope Z_scope.
Local Open Scope string_scope.

(** ** JavaScript values used by the two modules *)

(** The outcome of evaluating an expression or awaiting a promise. *)
Inductive Completion (A : Type) : Type :=
| Returned (a : A)
| Thrown (message : string).
Arguments Returned {A} a.
Arguments Thrown {A} message.

Definition bind {A B} (c : Completion A) (k : A -> Completion B) : Completion B :=
  match c with
  | Returned a => k a
  | Thrown e => Thrown e
  end.

(** [try { c } catch { h }] *)
Definition try_catch {A} (c : Completion A) (h : string -> A) : A :=
  match c with
  | Returned a => a
  | Thrown e => h e
  end.

#[warnings="-register-all"]
Inductive Json : Type :=
| JNull
| JBool (b : bool)
| JNum (n : Z)
| JStr (s : string)
| JObj (fields : list (string * Json)).

(** [String.prototype.startsWith] *)
Definition startsWith (s p : string) : bool := String.prefix p s.
Arguments startsWith : simpl never.

(** [String.prototype.includes]: [sub] occurs at some offset of [s]. *)
Fixpoint includes (s sub : string) : bool :=
  startsWith s sub ||
  match s with
  | EmptyString => false
  | String _ rest => includes rest sub
  end.

(** Truthiness of a value of type [string | null | undefined]. *)
Definition truthy (v : option string) : option string :=
  match v with
  | Some s => if decide (s = "") then None else Some s
  | None => None
  end.

(** A template literal prints [null] for a missing string. *)
Definition show (v : option string) : string :=
  match v with
  | Some s => s
  | None => "null"
  end.

(** ** src/lib/redis.ts *)

Module RedisClient.

Record TlsOptions := { rejectUnauthorized : bool }.

(** The arguments of [new Redis(redisUrl, { ... })]. *)
Record Options := {
  url : string;
  maxRetriesPerRequest : Z;
  tls : option TlsOptions;
  lazyConnect : bool
}.

Definition not_set : string := "REDIS_URL environment variable is not set.".

(** [let tlsOptions = undefined; if (...) { tlsOptions = {...} }] *)
Definition tlsOptions (env : gmap string string) (redisUrl : string) : option TlsOptions :=
  if startsWith redisUrl "rediss://" || includes redisUrl "tls=true"
  then Some {| rejectUnauthorized := bool_decide (env !! "NODE_ENV" = Some "production") |}
  else None.

(** Evaluation of the module body, given [process.env]. *)
Definition redis (env : gmap string string) : Completion Options :=
  match truthy (env !! "REDIS_URL") with
  | None => Thrown not_set
  | Some redisUrl =>
      Returned {| url := redisUrl;
                  maxRetriesPerRequest := 3;
                  tls := tlsOptions env redisUrl;
                  lazyConnect := true |}
  end.

(** The line the module prints before it creates the client. *)
Definition notice (t : option TlsOptions) : string :=
  match t with
  | Some _ => "Attempting Redis connection with TLS enabled."
  | None => "Attempting Redis connection without explicit TLS."
  end.

End RedisClient.

(** ** src/app/api/mcp/route.ts *)

Module Route.

(** *** The collaborators of the module *)

(** What a [NextResponse.json(body, { status })] carries. *)
Record Response := { status : Z; body : Json }.

(** The part of a [NextRequest] the handlers read:
    [req.nextUrl.searchParams.get('sessionId')] and [await req.text()]. *)
Record NextRequest := { searchParams_sessionId : option string; text : string }.

(** The calls a handler can make on [mockRes]: [status(code)], and [send(body)]
    and [end()] either directly or on the object [status] returns;
    [status(c).send(b)] is [ResStatus c] followed by [ResSend b]. *)
Inductive MockCall :=
| ResStatus (code : Z)
| ResSend (body : string)
| ResEnd.

(** An [SSEServerTransport] as the module uses it: its session id, the
    optional method [receiveMessage] probed by [typeof ... === 'function'],
    and [handlePostMessage], which drives the mock response and may throw. *)
Record SSEServerTransport := {
  sessionId : string;
  receiveMessage : option (string -> Completion Json);
  handlePostMessage : string -> list MockCall * Completion unit
}.

(** A record of the shared store: the value and the remaining
    time-to-live in seconds ([None]: no expiry). *)
Record RedisEntry := { value : string; ttl : option Z }.

Inductive Level := LevelLog | LevelWarn | LevelError.

(** Commands issued to the collaborators, in the order the module issues
    them (ghost state: it records attempts, failed or not). *)
Inductive Effect :=
| RedisExists (key : string)
| RedisExpire (key : string) (seconds : Z)
| RedisSet (key val : string) (seconds : Z)
| RedisDel (key : string)
| RegistryAssign (sid : string)
| RegistryDelete (sid : string)
| McpConnect (sid : string)
| ReceiveMessage (sid message : string)
| HandlePostMessage (sid message : string).

(** The state a handler runs in: the module-level object
    [activeTransports] (its own properties), the contents of the shared
    store, the console and the commands issued so far. *)
Record World := {
  activeTransports : gmap string SSEServerTransport;
  store : gmap string RedisEntry;
  console : list (Level * string);
  effects : list Effect
}.

(** Which of the network calls of one handler run are rejected. *)
Record Faults := {
  fail_exists : bool;
  fail_expire : bool;
  fail_set : bool;
  fail_del : bool
}.

Definition no_faults : Faults :=
  {| fail_exists := false; fail_expire := false; fail_set := false; fail_del := false |}.

Definition set_activeTransports (m : gmap string SSEServerTransport) (w : World) : World :=
  {| activeTransports := m; store := store w; console := console w; effects := effects w |}.

Definition set_store (m : gmap string RedisEntry) (w : World) : World :=
  {| activeTransports := activeTransports w; store := m; console := console w; effects := effects w |}.

Definition print (l : Level) (msg : string) (w : World) : World :=
  {| activeTransports := activeTransports w; store := store w;
     console := console w ++ [(l, msg)]; effects := effects w |}.

Definition issue (e : Effect) (w : World) : World :=
  {| activeTransports := activeTransports w; store := store w;
     console := console w; effects := effects w ++ [e] |}.

Definition console_log := print LevelLog.
Definition console_warn := print LevelWarn.
Definition console_error := print LevelError.

(** *** Property access on the plain object [activeTransports]

    [activeTransports] is created by the literal [{}], so its prototype is
    [Object.prototype]: reading a name that is not an own property falls
    through to the members every object inherits. *)

Definition Object_prototype : list string :=
  [ "constructor"; "__defineGetter__"; "__defineSetter__"; "hasOwnProperty";
    "__lookupGetter__"; "__lookupSetter__"; "isPrototypeOf";
    "propertyIsEnumerable"; "toString"; "valueOf"; "__proto__";
    "toLocaleString" ].

Definition inherited (name : string) : bool :=
  bool_decide (name ∈ Object_prototype).

(** What [activeTransports[sessionId]] evaluates to. *)
Inductive Property :=
| Undefined
| Own (transport : SSEServerTransport)
| Inherited (name : string).

Definition get (o : gmap string SSEServerTransport) (name : string) : Property :=
  match o !! name with
  | Some t => Own t
  | None => if inherited name then Inherited name else Undefined
  end.

(** [o[name] = t], as far as the own properties go. Assigning to
    [__proto__] goes to the inherited setter and creates no own property; it
    replaces the prototype of the object instead, which [get] does not
    follow: a world describes the registry with the prototype it is created
    with, the state every session id the SDK generates leaves it in. *)
Definition assign (name : string) (t : SSEServerTransport)
    (o : gmap string SSEServerTransport) : gmap string SSEServerTransport :=
  if decide (name = "__proto__") then o else <[name := t]> o.

(** *** The shared store (ioredis commands) *)

Definition SESSION_EXPIRATION_SECONDS : Z := 3600.

(** [`mcp_session:${sessionId}`] *)
Definition session_key (sid : string) : string := "mcp_session:" ++ sid.

Definition store_error : string := "Redis command failed".

(** [EXISTS key]: the number of keys found. *)
Definition redis_exists (f : Faults) (key : string) (w : World) : Completion Z * World :=
  let w := issue (RedisExists key) w in
  if fail_exists f then (Thrown store_error, w)
  else (Returned (match store w !! key with Some _ => 1 | None => 0 end), w).

(** [EXPIRE key seconds]: 1 when the timeout was set, 0 when the key is missing. *)
Definition redis_expire (f : Faults) (key : string) (seconds : Z) (w : World)
    : Completion Z * World :=
  let w := issue (RedisExpire key seconds) w in
  if fail_expire f then (Thrown store_error, w)
  else match store w !! key with
       | Some e => (Returned 1,
                    set_store (<[key := {| value := value e; ttl := Some seconds |}]> (store w)) w)
       | None => (Returned 0, w)
       end.

(** [SET key value EX seconds] *)
Definition redis_set (f : Faults) (key val : string) (seconds : Z) (w : World)
    : Completion unit * World :=
  let w := issue (RedisSet key val seconds) w in
  if fail_set f then (Thrown store_error, w)
  else (Returned tt, set_store (<[key := {| value := val; ttl := Some seconds |}]> (store w)) w).

(** [DEL key]: the number of keys removed. *)
Definition redis_del (f : Faults) (key : string) (w : World) : Completion Z * World :=
  let w := issue (RedisDel key) w in
  if fail_del f then (Thrown store_error, w)
  else (Returned (match store w !! key with Some _ => 1 | None => 0 end), set_store (delete key (store w)) w).

(** [p.catch(err => console.error(msg, err))] on a call whose result is
    not otherwise used. *)
Definition detached {A} (r : Completion A * World) (msg : string) : World :=
  match r with
  | (Returned _, w) => w
  | (Thrown _, w) => console_error msg w
  end.

(** The console line of a rejected refresh. *)
Definition refresh_error (sid : string) : Level * string :=
  (LevelError, "Error refreshing expiry for session " ++ sid ++ ":").

(** *** The handlers *)

(** [delete activeTransports[id]; redis.del(key).catch(log)]: the [onClose]
    callback of the response object handed to the transport. *)
Definition onClose (f : Faults) (transport : SSEServerTransport) (w : World) : World :=
  let sid := sessionId transport in
  let w := console_log ("SSE connection closed for session " ++ sid ++ ". Cleaning up.") w in
  let w := issue (RegistryDelete sid) w in
  let w := set_activeTransports (delete sid (activeTransports w)) w in
  detached (redis_del f (session_key sid) w)
           ("Error deleting session " ++ sid ++ " from Redis:").

(** Modelled from the spec: [SSEServerTransport.close] belongs to the SDK
    and is not under src/; by section 4.1, closing a transport invokes the
    registered teardown callback. *)
Definition close (f : Faults) (transport : SSEServerTransport) (w : World) : World :=
  onClose f transport w.

(** [activeTransports[sessionId] = transport] *)
Definition register (transport : SSEServerTransport) (w : World) : World :=
  let sid := sessionId transport in
  let w := issue (RegistryAssign sid) w in
  set_activeTransports (assign sid transport (activeTransports w)) w.

(** The [start(controller)] callback of the stream built by [GET], for the
    transport the SDK constructor returned and the outcome of
    [mcpServer.connect(transport)]. *)
Definition start (f : Faults) (connect : Completion unit)
    (transport : SSEServerTransport) (w : World) : World :=
  let sid := sessionId transport in
  let w := console_log ("Generated Session ID: " ++ sid) w in
  let w := register transport w in
  let w :=
    match redis_set f (session_key sid) "active" SESSION_EXPIRATION_SECONDS w with
    | (Returned _, w) => console_log ("Session " ++ sid ++ " stored in Redis") w
    | (Thrown _, w) => console_error ("Error storing session " ++ sid ++ " in Redis:") w
    end in
  let w := issue (McpConnect sid) w in
  match connect with
  | Returned _ =>
      console_log ("McpServer connected to transport for session " ++ sid) w
  | Thrown _ =>
      close f transport
        (console_error ("Error connecting McpServer for session " ++ sid ++ ":") w)
  end.

Definition sse_headers : list (string * string) :=
  [ ("Content-Type", "text/event-stream");
    ("Cache-Control", "no-cache, no-transform");
    ("Connection", "keep-alive") ].

Definition GET (f : Faults) (connect : Completion unit)
    (transport : SSEServerTransport) (w : World) : list (string * string) * World :=
  let w := console_log "Received GET request for MCP SSE connection" w in
  (sse_headers, start f connect transport w).

Definition json (b : Json) (s : Z) : Response := {| status := s; body := b |}.

Definition error (msg : string) : Json := JObj [("error", JStr msg)].
Definition success : Json := JObj [("success", JBool true)].

(** The conversion of an integer to the IDL type [unsigned short], which
    [status] has in the dictionary a response is built from: the value
    modulo 2^16. *)
Definition unsigned_short (n : Z) : Z := n mod 65536.

(** [NextResponse.json(body, { status })] for a status computed at run
    time: the status is first converted to an [unsigned short]; the
    [Response] constructor then rejects a status outside 200..599 and a body
    on a null-body status, and the response carries the converted status.
    The literal statuses 200, 400 and 500 of the module are left as they are
    by the conversion and pass both tests, so those sites use [json]. *)
Definition NextResponse_json (b : Json) (s : Z) : Completion Response :=
  let status := unsigned_short s in
  if ((status <? 200) || (599 <? status))%Z then
    Thrown "init[status] must be in the range of 200 to 599, inclusive."
  else if ((status =? 204) || (status =? 205) || (status =? 304))%Z then
    Thrown "Response with null body status cannot have body"
  else Returned (json b status).

(** [responseStatus] and [responseBody] after the handler's calls on
    [mockRes], starting from [200] and the empty string. *)
Definition mockRes (calls : list MockCall) : Z * string :=
  fold_left
    (fun acc c =>
       match c with
       | ResStatus code => (code, snd acc)
       | ResSend b => (fst acc, b)
       | ResEnd => acc
       end)
    calls (200, "").

(** The body of the second [try] block of [POST], for the value the
    registry read produced. *)
Definition forward (sid : string) (transport : Property) (req : NextRequest)
    (w : World) : Completion Response * World :=
  let messageString := text req in
  let fallback_warning :=
    "Transport for session " ++ sid ++
    " does not have a receiveMessage method. Attempting handlePostMessage (may fail)." in
  match transport with
  | Undefined => (Thrown "Cannot read properties of undefined", w)
  | Inherited _ =>
      (Thrown "transport.handlePostMessage is not a function",
       console_warn fallback_warning w)
  | Own t =>
      match receiveMessage t with
      | Some receive =>
          let w := issue (ReceiveMessage sid messageString) w in
          match receive messageString with
          | Thrown e => (Thrown e, w)
          | Returned _ =>
              (Returned (json success 200),
               console_log ("Message forwarded to transport for session " ++ sid) w)
          end
      | None =>
          let w := console_warn fallback_warning w in
          let w := issue (HandlePostMessage sid messageString) w in
          match handlePostMessage t messageString with
          | (_, Thrown e) => (Thrown e, w)
          | (calls, Returned _) =>
              let responseStatus := fst (mockRes calls) in
              let responseBody := snd (mockRes calls) in
              let w := console_log
                         ("handlePostMessage called for session " ++ sid ++
                          ". Mock response status: " ++ pretty responseStatus) w in
              (NextResponse_json
                 (if decide (responseBody = "") then success else JStr responseBody)
                 responseStatus, w)
          end
      end
  end.

Definition POST (f : Faults) (req : NextRequest) (w : World) : Response * World :=
  let sessionId := searchParams_sessionId req in
  let w := console_log
             ("Received POST request for MCP message (Session ID: " ++ show sessionId ++ ")") w in
  match truthy sessionId with
  | None =>
      (json (error "Missing sessionId") 400,
       console_error "POST request missing sessionId" w)
  | Some sid =>
      match redis_exists f (session_key sid) w with
      | (Thrown _, w) =>
          (json (error "Internal server error checking session") 500,
           console_error "Redis error checking session:" w)
      | (Returned sessionExists, w) =>
          if (sessionExists =? 0)%Z then
            (json (error "Invalid or expired session ID") 400,
             console_error ("Session ID " ++ sid ++ " not found in Redis or expired.") w)
          else
            let w := detached
                       (redis_expire f (session_key sid) SESSION_EXPIRATION_SECONDS w)
                       ("Error refreshing expiry for session " ++ sid ++ ":") in
            match get (activeTransports w) sid with
            | Undefined =>
                (json (error "Transport not found for session ID. Please reconnect.") 400,
                 console_error
                   ("Transport not found in memory for Session ID " ++ sid ++
                    ". Possible instance mismatch.") w)
            | transport =>
                match forward sid transport req w with
                | (Returned response, w) => (response, w)
                | (Thrown _, w) =>
                    (json (error "Failed to process message") 500,
                     console_error
                       ("Error processing POST message for session " ++ sid ++ ":") w)
                end
            end
      end
  end.

(** Evaluation of the module itself. Its import of [lib/redis] is
    evaluated first: when that throws, the body does not run and no handler
    is exported; otherwise the registry starts empty, next to whatever the
    shared store holds. *)
Definition evaluate (env : gmap string string) (shared : gmap string RedisEntry)
    : Completion World :=
  bind (RedisClient.redis env) (fun options =>
    Returned {| activeTransports := ∅;
                store := shared;
                console := [(LevelLog, RedisClient.notice (RedisClient.tls options))];
                effects := [] |}).

(** [f] with the outcome of the refresh replaced. *)
Definition with_fail_expire (b : bool) (f : Faults) : Faults :=
  {| fail_exists := fail_exists f; fail_expire := b;
     fail_set := fail_set f; fail_del := fail_del f |}.

(** The inbound handler of [t] fails on [message]: the method [POST]
    picks, [receiveMessage] when present and [handlePostMessage]
    otherwise, throws or rejects. *)
Definition handler_fails (t : SSEServerTransport) (message : string) : Prop :=
  match receiveMessage t with
  | Some receive => exists e, receive message = Thrown e
  | None => exists e, snd (handlePostMessage t message) = Thrown e
  end.

(** The three ways the module acts on a world once it is loaded. *)
Inductive Operation :=
| StreamOpen (connect : Completion unit) (transport : SSEServerTransport)
| Call (req : NextRequest)
| Teardown (transport : SSEServerTransport).

Definition run (f : Faults) (op : Operation) (w : World) : World :=
  match op with
  | StreamOpen connect transport => snd (GET f connect transport w)
  | Call req => snd (POST f req w)
  | Teardown transport => onClose f transport w
  end.

(** *** The stream callbacks of [GET]

    [start] hands the transport an object with [write], [end] and [onClose];
    [write] and [end] act on the controller of the [ReadableStream]. *)

(** A [ReadableStreamDefaultController]: the chunks enqueued so far, and
    whether the stream still takes chunks (it no longer does once closed or
    cancelled). *)
Record Controller := { queue : list string; readable : bool }.

Definition invalid_state : string := "Invalid state: Controller is already closed".

(** [controller.enqueue(Buffer.from(chunk))] *)
Definition enqueue (chunk : string) (c : Controller) : Completion Controller :=
  if readable c then Returned {| queue := queue c ++ [chunk]; readable := true |}
  else Thrown invalid_state.

(** [controller.close()] *)
Definition controller_close (c : Controller) : Completion Controller :=
  if readable c then Returned {| queue := queue c; readable := false |}
  else Thrown invalid_state.

(** [try { controller.close(); } catch {}] *)
Definition try_close (c : Controller) : Controller :=
  try_catch (controller_close c) (fun _ => c).

(** The [write] callback. *)
Definition write (transport : SSEServerTransport) (chunk : string)
    (c : Controller) (w : World) : Controller * World :=
  match enqueue chunk c with
  | Returned c' => (c', w)
  | Thrown _ =>
      (try_close c,
       console_error
         ("Error enqueueing SSE chunk for session " ++ sessionId transport ++ ":") w)
  end.

(** The [end] callback. *)
Definition end_ (transport : SSEServerTransport) (c : Controller) (w : World)
    : Controller * World :=
  (try_close c,
   console_log ("SSE stream ending for session " ++ sessionId transport) w).

(** [write] for each chunk of a list, in order. *)
Definition write_all (transport : SSEServerTransport) (chunks : list string)
    (c : Controller) (w : World) : Controller * World :=
  fold_left (fun cw chunk => write transport chunk (fst cw) (snd cw)) chunks (c, w).

(** *** Sequences of operations *)

(** The session an operation is about. *)
Definition operation_session (op : Operation) : option string :=
  match op with
  | StreamOpen _ transport => Some (sessionId transport)
  | Call req => truthy (searchParams_sessionId req)
  | Teardown transport => Some (sessionId transport)
  end.

(** The operations of a list, each with the faults of its run, one after
    the other. *)
Fixpoint runs (ops : list (Faults * Operation)) (w : World) : World :=
  match ops with
  | [] => w
  | (f, op) :: rest => runs rest (run f op w)
  end.

(** Every binding of the registry is filed under the id of its transport. *)
Definition keyed_by_id (w : World) : Prop :=
  forall sid t, activeTransports w !! sid = Some t -> sessionId t = sid.

(** Every record of the store is a session record as [GET] writes it. *)
Definition session_records (w : World) : Prop :=
  forall key e, store w !! key = Some e ->
    (exists sid, key = session_key sid) /\
    value e = "active" /\ ttl e = Some SESSION_EXPIRATION_SECONDS.

(** Every session registered here has a record in the store. *)
Definition registered_recorded (w : World) : Prop :=
  forall sid, is_Some (activeTransports w !! sid) ->
    is_Some (store w !! session_key sid).

End Route.

(** ** src/lib/server.ts *)

Module Server.

(** One entry of the [contents] of a resource read. *)
Record ResourceContent := { uri : string; resource_text : string }.

(** One entry of the [content] of a tool result. *)
Record ToolContent := { type : string; text : string }.

(** One entry of the [messages] of a prompt. *)
Record PromptMessage := { role : string; content : ToolContent }.

(** The read callback of the resource [echo], template [echo://{message}],
    for [uri.href] and a template variable that is one string. *)
Definition echo_resource (href message : string) : list ResourceContent :=
  [ {| uri := href; resource_text := "Resource echo: " ++ message |} ].

(** The callback of the tool [echo]; the schema admits strings only. *)
Definition echo_tool (message : string) : list ToolContent :=
  [ {| type := "text"; text := "Tool echo: " ++ message |} ].

(** The callback of the prompt [echo]. *)
Definition echo_prompt (message : string) : list PromptMessage :=
  [ {| role := "user";
       content := {| type := "text";
                     text := "Please process this message: " ++ message |} |} ].

End Server.

(** ** Scenarios

    The sessions of the design document's examples: [S1] is open on this
    instance; [S2] is open on another instance only; [S3] is open here with
    a handler that fails; [UNKNOWN] was never opened. *)

Module Scenario.

Import Route.

Definition pong : Json := JObj [("pong", JBool true)].

(** A transport whose [receiveMessage] answers every message with [pong]. *)
Definition answering : SSEServerTransport :=
  {| sessionId := "S1";
     receiveMessage := Some (fun _ => Returned pong);
     handlePostMessage := fun _ => ([], Returned tt) |}.

(** A second transport carrying the id of [answering]. *)
Definition rebound : SSEServerTransport :=
  {| sessionId := "S1";
     receiveMessage := None;
     handlePostMessage := fun _ => ([], Returned tt) |}.

(** A transport without [receiveMessage], whose [handlePostMessage] calls
    [res.status(202).send("Accepted")]. *)
Definition legacy : SSEServerTransport :=
  {| sessionId := "S4";
     receiveMessage := None;
     handlePostMessage := fun _ => ([ResStatus 202; ResSend "Accepted"], Returned tt) |}.

Definition failing : SSEServerTransport :=
  {| sessionId := "S3";
     receiveMessage := Some (fun _ => Thrown "handler failure");
     handlePostMessage := fun _ => ([], Returned tt) |}.

Definition active (seconds : Z) : RedisEntry :=
  {| value := "active"; ttl := Some seconds |}.

(** This instance: [S1], [S3] and [S4] are registered; the shared store
    also knows [S2], and [S3] has 120 seconds left. *)
Definition instance : World :=
  {| activeTransports := {[ "S1" := answering; "S3" := failing; "S4" := legacy ]};
     store := {[ "mcp_session:S1" := active 3600; "mcp_session:S2" := active 3600;
                 "mcp_session:S3" := active 120; "mcp_session:S4" := active 3600 ]};
     console := [];
     effects := [] |}.

Definition ping (sid : string) : NextRequest :=
  {| searchParams_sessionId := Some sid; text := "ping" |}.

Definition store_down : Faults :=
  {| fail_exists := true; fail_expire := true; fail_set := true; fail_del := true |}.

(** A freshly loaded instance in front of an empty store. *)
Definition fresh : World :=
  {| activeTransports := ∅; store := ∅; console := []; effects := [] |}.

(** A stream controller that has taken one frame. *)
Definition streaming : Controller := {| queue := ["event: endpoint"]; readable := true |}.

(** Transports without [receiveMessage]: [silent] calls
    [res.status(404).end()], [out_of_range] calls [res.status(99).send("x")]. *)
Definition silent : SSEServerTransport :=
  {| sessionId := "S5";
     receiveMessage := None;
     handlePostMessage := fun _ => ([ResStatus 404; ResEnd], Returned tt) |}.

Definition out_of_range : SSEServerTransport :=
  {| sessionId := "S6";
     receiveMessage := None;
     handlePostMessage := fun _ => ([ResStatus 99; ResSend "x"], Returned tt) |}.

(** An instance where [S4], [S5] and [S6] are open. *)
Definition fallbacks : World :=
  {| activeTransports := {[ "S4" := legacy; "S5" := silent; "S6" := out_of_range ]};
     store := {[ "mcp_session:S4" := active 3600; "mcp_session:S5" := active 3600;
                 "mcp_session:S6" := active 3600 ]};
     console := [];
     effects := [] |}.

End Scenario.

(** * Properties *)

(** ** Strings *)

Section Strings.

Lemma startsWith_append (p rest : string) : startsWith (p ++ rest) p = true.
Proof.
  unfold startsWith. induction p as [|a p IH]; simpl.
  - by destruct rest.
  - destruct (Ascii.ascii_dec a a); [exact IH | done].
Qed.

Lemma startsWith_inv (s p : string) :
  startsWith s p = true -> exists rest, s = p ++ rest.
Proof.
  unfold startsWith. revert s. induction p as [|a p IH]; intros s H.
  - by exists s.
  - destruct s as [|b s]; simpl in H; [done|].
    destruct (Ascii.ascii_dec a b) as [->|]; [|done].
    destruct (IH _ H) as [rest ->]. by exists rest.
Qed.

Lemma startsWith_spec (s p : string) :
  startsWith s p = true <-> exists rest, s = p ++ rest.
Proof.
  split; [apply startsWith_inv|]. intros [rest ->]. apply startsWith_append.
Qed.

Lemma includes_startsWith (s sub : string) :
  startsWith s sub = true -> includes s sub = true.
Proof. intros H. destruct s; simpl; by rewrite H. Qed.

(** [includes] finds exactly the occurrences of [sub] as a substring. *)
Lemma includes_spec (s sub : string) :
  includes s sub = true <-> exists before after, s = before ++ sub ++ after.
Proof.
  split.
  - induction s as [|c s IH]; simpl; intros H.
    + apply orb_true_iff in H as [H|H]; [|done].
      apply startsWith_inv in H as [rest ->]. by exists "", rest.
    + apply orb_true_iff in H as [H|H].
      * apply startsWith_inv in H as [rest ->]. by exists "", rest.
      * destruct (IH H) as (before & after & ->).
        by exists (String c before), after.
  - intros (before & after & ->).
    induction before as [|c before IH].
    + change (includes (sub ++ after) sub = true).
      apply includes_startsWith, startsWith_append.
    + change (startsWith (String c before ++ sub ++ after) sub
              || includes (before ++ sub ++ after) sub = true).
      rewrite IH. apply orb_true_r.
Qed.

End Strings.

(** ** Start-up configuration *)

Section Configuration.

Import RedisClient.

Lemma redis_unset (env : gmap string string) :
  env !! "REDIS_URL" = None -> redis env = Thrown not_set.
Proof. intros H. unfold redis. by rewrite H. Qed.

Lemma redis_set_url (env : gmap string string) (redisUrl : string) :
  env !! "REDIS_URL" = Some redisUrl -> redisUrl <> "" ->
  redis env = Returned {| url := redisUrl; maxRetriesPerRequest := 3;
                          tls := tlsOptions env redisUrl; lazyConnect := true |}.
Proof.
  intros H Hne. unfold redis. rewrite H. simpl. by destruct (decide (redisUrl = "")).
Qed.

Lemma tlsOptions_spec (env : gmap string string) (redisUrl : string) :
  is_Some (tlsOptions env redisUrl) <->
  (exists rest, redisUrl = "rediss://" ++ rest) \/
  (exists before after, redisUrl = before ++ "tls=true" ++ after).
Proof.
  unfold tlsOptions. rewrite <- startsWith_spec, <- includes_spec.
  destruct (startsWith redisUrl "rediss://"), (includes redisUrl "tls=true"); simpl;
    split; intros H; eauto; try (destruct H as [? H]; discriminate H);
    destruct H as [H|H]; discriminate H.
Qed.

(** C9, as stated, fails: two endpoints with the same scheme [redis://]
    get different TLS settings, because [tls=true] anywhere in the endpoint
    also switches TLS on. *)
Lemma tls_not_inferred_from_scheme :
  let plain := "redis://cache.internal:6379" in
  let flagged := "redis://cache.internal:6379?tls=true" in
  startsWith plain "redis://" = true /\ startsWith flagged "redis://" = true /\
  startsWith flagged "rediss://" = false /\
  redis {[ "REDIS_URL" := plain ]} =
    Returned {| url := plain; maxRetriesPerRequest := 3; tls := None; lazyConnect := true |} /\
  redis {[ "REDIS_URL" := flagged ]} =
    Returned {| url := flagged; maxRetriesPerRequest := 3;
                tls := Some {| rejectUnauthorized := false |}; lazyConnect := true |}.
Proof. repeat split; vm_compute; reflexivity. Qed.

(** C9 (amended): without [REDIS_URL] the evaluation of [lib/redis] throws,
    and with it the evaluation of the route module, so no handler exists to
    run a session operation; with a non-empty [REDIS_URL] the client is
    configured, and TLS is on exactly when the endpoint starts with
    [rediss://] or contains [tls=true]. *)
Theorem redis_configuration (env : gmap string string)
    (shared : gmap string Route.RedisEntry) :
  (env !! "REDIS_URL" = None ->
     redis env = Thrown not_set /\ Route.evaluate env shared = Thrown not_set) /\
  (forall redisUrl, env !! "REDIS_URL" = Some redisUrl -> redisUrl <> "" ->
     exists options,
       redis env = Returned options /\ url options = redisUrl /\
       (exists w, Route.evaluate env shared = Returned w /\
                  Route.activeTransports w = ∅ /\ Route.store w = shared) /\
       (is_Some (tls options) <->
          (exists rest, redisUrl = "rediss://" ++ rest) \/
          (exists before after, redisUrl = before ++ "tls=true" ++ after))).
Proof.
  split.
  - intros H. unfold Route.evaluate. by rewrite (redis_unset _ H).
  - intros redisUrl H Hne. eexists. unfold Route.evaluate.
    rewrite (redis_set_url _ _ H Hne). simpl.
    repeat split; eauto; apply tlsOptions_spec.
Qed.

Lemma redis_configuration_witness :
  Route.evaluate ∅ ∅ = Thrown not_set /\
  exists options,
    redis {[ "REDIS_URL" := "rediss://cache.internal:6380" ]} = Returned options /\
    is_Some (tls options).
Proof.
  split.
  - apply (redis_configuration ∅ ∅). reflexivity.
  - destruct (proj2 (redis_configuration {[ "REDIS_URL" := "rediss://cache.internal:6380" ]} ∅)
                "rediss://cache.internal:6380") as (options & Hr & _ & _ & Htls).
    + reflexivity.
    + discriminate.
    + exists options. split; [exact Hr|]. apply Htls. left.
      by exists "cache.internal:6380".
Defined.

End Configuration.

(** ** The registry, the store and the router *)

Section Routing.

Import Route.

Implicit Types (f : Faults) (req : NextRequest) (w : World)
               (t transport : SSEServerTransport) (sid : string).

(** *** Frame lemmas for the collaborators *)

Lemma registry_print l msg w : activeTransports (print l msg w) = activeTransports w.
Proof. reflexivity. Qed.

Lemma registry_issue e w : activeTransports (issue e w) = activeTransports w.
Proof. reflexivity. Qed.

Lemma registry_redis_exists f key w :
  activeTransports (snd (redis_exists f key w)) = activeTransports w.
Proof. unfold redis_exists. by destruct (fail_exists f). Qed.

Lemma registry_redis_expire f key seconds w :
  activeTransports (snd (redis_expire f key seconds w)) = activeTransports w.
Proof.
  unfold redis_expire. destruct (fail_expire f); [done|].
  simpl. by destruct (store w !! key).
Qed.

Lemma registry_redis_set f key val seconds w :
  activeTransports (snd (redis_set f key val seconds w)) = activeTransports w.
Proof. unfold redis_set. by destruct (fail_set f). Qed.

Lemma registry_redis_del f key w :
  activeTransports (snd (redis_del f key w)) = activeTransports w.
Proof. unfold redis_del. by destruct (fail_del f). Qed.

Lemma registry_detached {A} (r : Completion A * World) msg :
  activeTransports (detached r msg) = activeTransports (snd r).
Proof. by destruct r as [[]]. Qed.

Lemma registry_forward sid (p : Property) req w :
  activeTransports (snd (forward sid p req w)) = activeTransports w.
Proof.
  unfold forward. destruct p as [|t|name]; try done.
  destruct (receiveMessage t) as [receive|].
  - by destruct (receive (text req)).
  - by destruct (handlePostMessage t (text req)) as [calls []].
Qed.

(** The call handler leaves [activeTransports] as it found it. *)
Lemma POST_registry f req w :
  activeTransports (snd (POST f req w)) = activeTransports w.
Proof.
  unfold POST.
  destruct (truthy (searchParams_sessionId req)) as [sid|]; [|done].
  pose proof (registry_redis_exists f (session_key sid)
                (console_log ("Received POST request for MCP message (Session ID: "
                              ++ show (searchParams_sessionId req) ++ ")") w)) as Hex.
  destruct (redis_exists _ _ _) as [[sessionExists|] w1]; simpl in Hex; [|done].
  destruct (sessionExists =? 0)%Z; [done|].
  set (w2 := detached _ _).
  assert (activeTransports w2 = activeTransports w) as H2.
  { unfold w2. by rewrite registry_detached, registry_redis_expire. }
  destruct (get (activeTransports w2) sid) eqn:Hget; [done| |].
  - pose proof (registry_forward sid (Own transport) req w2) as Hf.
    destruct (forward _ _ _ _) as [[] w3]; simpl in *; congruence.
  - pose proof (registry_forward sid (Inherited name) req w2) as Hf.
    destruct (forward _ _ _ _) as [[] w3]; simpl in *; congruence.
Qed.

Lemma redis_exists_found f key w e :
  fail_exists f = false -> store w !! key = Some e ->
  redis_exists f key w = (Returned 1%Z, issue (RedisExists key) w).
Proof. intros Hf He. unfold redis_exists. rewrite Hf. simpl. by rewrite He. Qed.

Lemma redis_exists_missing f key w :
  fail_exists f = false -> store w !! key = None ->
  redis_exists f key w = (Returned 0%Z, issue (RedisExists key) w).
Proof. intros Hf He. unfold redis_exists. rewrite Hf. simpl. by rewrite He. Qed.

Lemma redis_expire_found f key seconds w e :
  store w !! key = Some e ->
  redis_expire f key seconds w =
    if fail_expire f
    then (Thrown store_error, issue (RedisExpire key seconds) w)
    else (Returned 1%Z,
          set_store (<[key := {| value := value e; ttl := Some seconds |}]> (store w))
                    (issue (RedisExpire key seconds) w)).
Proof.
  intros He. unfold redis_expire. destruct (fail_expire f); [done|].
  simpl. by rewrite He.
Qed.

(** *** The first three steps of a call

    A call with a non-empty session id whose existence check is answered
    and finds the record reaches the registry read in a world [w2] that
    differs from [w] by the refresh only. *)

Lemma POST_checked f req w sid e :
  searchParams_sessionId req = Some sid -> sid <> "" ->
  fail_exists f = false -> store w !! session_key sid = Some e ->
  exists w2,
    activeTransports w2 = activeTransports w /\
    store w2 =
      (if fail_expire f then store w
       else <[session_key sid :=
                {| value := value e; ttl := Some SESSION_EXPIRATION_SECONDS |}]> (store w)) /\
    effects w2 =
      (effects w ++ [RedisExists (session_key sid);
                     RedisExpire (session_key sid) SESSION_EXPIRATION_SECONDS])%list /\
    (forall line, line ∈ console w -> line ∈ console w2) /\
    (if fail_expire f then refresh_error sid ∈ console w2 else True) /\
    POST f req w =
      match get (activeTransports w) sid with
      | Undefined =>
          (json (error "Transport not found for session ID. Please reconnect.") 400,
           console_error ("Transport not found in memory for Session ID " ++ sid ++
                          ". Possible instance mismatch.") w2)
      | transport =>
          match forward sid transport req w2 with
          | (Returned response, w3) => (response, w3)
          | (Thrown _, w3) =>
              (json (error "Failed to process message") 500,
               console_error ("Error processing POST message for session " ++ sid ++ ":") w3)
          end
      end.
Proof.
  intros Hsid Hne Hex He.
  unfold POST. rewrite Hsid. simpl truthy.
  destruct (decide (sid = "")) as [|_]; [done|].
  rewrite (redis_exists_found f _ _ e) by done. change (1 =? 0)%Z with false. cbv iota.
  rewrite (redis_expire_found f _ _ _ e); [|done].
  set (w2 := detached _ _).
  assert (activeTransports w2 = activeTransports w) as Hreg
    by (unfold w2; by destruct (fail_expire f)).
  rewrite Hreg. exists w2. unfold w2.
  split; [done|]. destruct (fail_expire f); simpl; repeat split.
  - by rewrite <- app_assoc.
  - intros line Hl. rewrite !elem_of_app. auto.
  - unfold refresh_error. rewrite !elem_of_app. right. apply list_elem_of_singleton. done.
  - by rewrite <- app_assoc.
  - intros line Hl. rewrite !elem_of_app. auto.
Qed.

(** *** Expired and unreachable sessions, store errors *)

Lemma POST_session_expired_any f req w sid :
  searchParams_sessionId req = Some sid -> sid <> "" ->
  fail_exists f = false ->
  store w !! session_key sid = None ->
  fst (POST f req w) = json (error "Invalid or expired session ID") 400.
Proof.
  intros Hsid Hne Hex He.
  unfold POST. rewrite Hsid. simpl truthy.
  destruct (decide (sid = "")) as [|_]; [done|].
  by rewrite redis_exists_missing.
Qed.

Lemma POST_store_error_any f req w sid :
  searchParams_sessionId req = Some sid -> sid <> "" ->
  fail_exists f = true ->
  fst (POST f req w) = json (error "Internal server error checking session") 500 /\
  snd (POST f req w) =
    console_error "Redis error checking session:"
      (issue (RedisExists (session_key sid))
         (console_log ("Received POST request for MCP message (Session ID: "
                       ++ sid ++ ")") w)).
Proof.
  intros Hsid Hne Hex.
  unfold POST, redis_exists. rewrite Hsid. simpl truthy.
  destruct (decide (sid = "")) as [|_]; [done|].
  by rewrite Hex.
Qed.

(** C2: for a session id (a non-empty [sessionId] parameter) that the
    shared store, on answering the existence check, does not hold, [POST]
    returns 400 with the body [Invalid or expired session ID], whatever
    the registry contains. *)
Theorem POST_session_expired f req w sid (registry : gmap string SSEServerTransport) :
  searchParams_sessionId req = Some sid -> sid <> "" ->
  fail_exists f = false ->
  store w !! session_key sid = None ->
  fst (POST f req (set_activeTransports registry w)) =
    json (error "Invalid or expired session ID") 400.
Proof.
  intros Hsid Hne Hex He.
  by apply (POST_session_expired_any f req _ sid).
Qed.

Lemma POST_session_expired_witness :
  fst (POST no_faults (Scenario.ping "UNKNOWN")
         (set_activeTransports {[ "UNKNOWN" := Scenario.answering ]} Scenario.instance)) =
    json (error "Invalid or expired session ID") 400.
Proof.
  apply (POST_session_expired no_faults (Scenario.ping "UNKNOWN") Scenario.instance "UNKNOWN").
  - reflexivity.
  - discriminate.
  - reflexivity.
  - reflexivity.
Defined.

(** C3: when the existence check itself fails, [POST] answers 500 with
    [Internal server error checking session], not the response of a missing
    record; the only command issued is the failed check, so the payload is
    forwarded to no transport and neither the store nor the registry
    changes. *)
Theorem POST_store_error f req w sid :
  searchParams_sessionId req = Some sid -> sid <> "" ->
  fail_exists f = true ->
  fst (POST f req w) = json (error "Internal server error checking session") 500 /\
  (500 <= status (fst (POST f req w)) < 600)%Z /\
  fst (POST f req w) <> json (error "Invalid or expired session ID") 400 /\
  effects (snd (POST f req w)) = (effects w ++ [RedisExists (session_key sid)])%list /\
  store (snd (POST f req w)) = store w /\
  activeTransports (snd (POST f req w)) = activeTransports w.
Proof.
  intros Hsid Hne Hex.
  destruct (POST_store_error_any f req w sid Hsid Hne Hex) as [-> ->].
  simpl. repeat split; try lia. discriminate.
Qed.

Lemma POST_store_error_witness :
  fst (POST Scenario.store_down (Scenario.ping "S1") Scenario.instance) =
    json (error "Internal server error checking session") 500.
Proof.
  apply (POST_store_error Scenario.store_down (Scenario.ping "S1") Scenario.instance "S1").
  - reflexivity.
  - discriminate.
  - reflexivity.
Defined.

(** C1: for a session id (a non-empty [sessionId] parameter that is not the
    name of a member of [Object.prototype]) whose record the store reports
    and which has no binding in [activeTransports], [POST] returns 400 with
    the body [Transport not found for session ID. Please reconnect.]: not a
    success, not the response of the expired case (the two share the status
    400 and differ in the error body), and nothing is forwarded. *)
Theorem POST_transport_unreachable f req w sid :
  searchParams_sessionId req = Some sid -> sid <> "" -> inherited sid = false ->
  fail_exists f = false ->
  is_Some (store w !! session_key sid) ->
  activeTransports w !! sid = None ->
  fst (POST f req w) =
    json (error "Transport not found for session ID. Please reconnect.") 400 /\
  fst (POST f req w) <> json (error "Invalid or expired session ID") 400 /\
  body (fst (POST f req w)) <> error "Invalid or expired session ID" /\
  ~ (200 <= status (fst (POST f req w)) < 300)%Z /\
  effects (snd (POST f req w)) =
    (effects w ++ [RedisExists (session_key sid);
                   RedisExpire (session_key sid) SESSION_EXPIRATION_SECONDS])%list.
Proof.
  intros Hsid Hne Hin Hex [e He] Hreg.
  destruct (POST_checked f req w sid e Hsid Hne Hex He)
    as (w2 & _ & _ & Heff & _ & _ & ->).
  unfold get. rewrite Hreg, Hin. simpl.
  repeat split; try done. lia.
Qed.

Lemma POST_transport_unreachable_witness :
  fst (POST no_faults (Scenario.ping "S2") Scenario.instance) =
    json (error "Transport not found for session ID. Please reconnect.") 400.
Proof.
  apply (POST_transport_unreachable no_faults (Scenario.ping "S2") Scenario.instance "S2").
  - reflexivity.
  - discriminate.
  - reflexivity.
  - reflexivity.
  - by eexists.
  - reflexivity.
Defined.

(** A name every object inherits reads as a truthy value that is no
    transport: such a [sessionId], when the store holds a record for it,
    passes the registry test and ends in the handler-failure response. *)
Remark POST_inherited_name f req w sid :
  searchParams_sessionId req = Some sid -> inherited sid = true ->
  fail_exists f = false ->
  is_Some (store w !! session_key sid) ->
  activeTransports w !! sid = None ->
  fst (POST f req w) = json (error "Failed to process message") 500.
Proof.
  intros Hsid Hin Hex [e He] Hreg.
  assert (sid <> "") as Hne by (intros ->; discriminate Hin).
  destruct (POST_checked f req w sid e Hsid Hne Hex He)
    as (w2 & _ & _ & _ & _ & _ & ->).
  unfold get. by rewrite Hreg, Hin.
Qed.

(** *** Forwarding *)

Lemma store_forward sid (p : Property) req w :
  store (snd (forward sid p req w)) = store w.
Proof.
  unfold forward. destruct p as [|t|name]; try done.
  destruct (receiveMessage t) as [receive|].
  - by destruct (receive (text req)).
  - by destruct (handlePostMessage t (text req)) as [calls []].
Qed.

Lemma console_forward sid (p : Property) req w line :
  line ∈ console w -> line ∈ console (snd (forward sid p req w)).
Proof.
  intros Hl. unfold forward. destruct p as [|t|name]; simpl; try done.
  - destruct (receiveMessage t) as [receive|].
    + destruct (receive (text req)); simpl; rewrite ?elem_of_app; auto.
    + destruct (handlePostMessage t (text req)) as [calls []]; simpl;
        rewrite ?elem_of_app; auto.
  - rewrite elem_of_app. auto.
Qed.

Lemma effects_forward sid (p : Property) req w e :
  e ∈ effects w -> e ∈ effects (snd (forward sid p req w)).
Proof.
  intros Hl. unfold forward. destruct p as [|t|name]; simpl; try done.
  destruct (receiveMessage t) as [receive|].
  - destruct (receive (text req)); simpl; rewrite ?elem_of_app; auto.
  - destruct (handlePostMessage t (text req)) as [calls []]; simpl;
      rewrite ?elem_of_app; auto.
Qed.

(** The response of the forwarding step depends on the transport and the
    request only. *)
Lemma response_forward sid (p : Property) req w w' :
  fst (forward sid p req w) = fst (forward sid p req w').
Proof.
  unfold forward. destruct p as [|t|name]; try done.
  destruct (receiveMessage t) as [receive|].
  - by destruct (receive (text req)).
  - by destruct (handlePostMessage t (text req)) as [calls []].
Qed.

(** A call that reaches a registered transport: the response is the one
    of the forwarding step, with the 500 of the [catch] clause for a
    failure, and the store is the refreshed one. *)
Lemma POST_registered f req w sid t e :
  searchParams_sessionId req = Some sid -> sid <> "" ->
  fail_exists f = false -> store w !! session_key sid = Some e ->
  activeTransports w !! sid = Some t ->
  exists w2,
    effects w2 =
      (effects w ++ [RedisExists (session_key sid);
                     RedisExpire (session_key sid) SESSION_EXPIRATION_SECONDS])%list /\
    fst (POST f req w) =
      try_catch (fst (forward sid (Own t) req w2))
                (fun _ => json (error "Failed to process message") 500) /\
    store (snd (POST f req w)) =
      (if fail_expire f then store w
       else <[session_key sid :=
                {| value := value e; ttl := Some SESSION_EXPIRATION_SECONDS |}]> (store w)) /\
    (forall eff, eff ∈ effects w2 -> eff ∈ effects (snd (POST f req w))) /\
    (if fail_expire f then refresh_error sid ∈ console (snd (POST f req w)) else True).
Proof.
  intros Hsid Hne Hex He Hreg.
  destruct (POST_checked f req w sid e Hsid Hne Hex He)
    as (w2 & _ & Hst & Heff & _ & Hlog & ->).
  exists w2. unfold get. rewrite Hreg.
  pose proof (store_forward sid (Own t) req w2) as Hs.
  pose proof (console_forward sid (Own t) req w2) as Hc.
  pose proof (effects_forward sid (Own t) req w2) as He2.
  destruct (forward sid (Own t) req w2) as [[response|err] w3]; simpl in *;
    rewrite Hs, Hst; repeat split; auto;
    destruct (fail_expire f); auto.
  rewrite elem_of_app. auto.
Qed.

(** C4, as stated, fails: [S1] is open and registered here, its handler
    answers [ping] with the payload [pong], and the response of the call is
    200 with the bare success marker, not the payload. *)
Lemma POST_discards_handler_result :
  activeTransports Scenario.instance !! "S1" = Some Scenario.answering /\
  (exists receive, receiveMessage Scenario.answering = Some receive /\
                   receive "ping" = Returned Scenario.pong) /\
  fst (POST no_faults (Scenario.ping "S1") Scenario.instance) = json success 200 /\
  fst (POST no_faults (Scenario.ping "S1") Scenario.instance) <> json Scenario.pong 200.
Proof.
  split; [reflexivity|]. split; [by eexists|]. split; [reflexivity|].
  vm_compute. discriminate.
Qed.

Lemma unsigned_short_small (s : Z) : (0 <= s < 65536)%Z -> unsigned_short s = s.
Proof. intros Hs. unfold unsigned_short. by apply Z.mod_small. Qed.

(** A status within 200..599 other than 204, 205 and 304 is accepted as it
    is. *)
Lemma NextResponse_json_accepts (b : Json) (s : Z) :
  (200 <= s <= 599)%Z -> s <> 204%Z -> s <> 205%Z -> s <> 304%Z ->
  NextResponse_json b s = Returned (json b s).
Proof.
  intros Hs H1 H2 H3. unfold NextResponse_json.
  rewrite unsigned_short_small by lia. cbv zeta.
  destruct (Z.ltb_spec s 200), (Z.ltb_spec 599 s); try lia.
  by destruct (Z.eqb_spec s 204), (Z.eqb_spec s 205), (Z.eqb_spec s 304).
Qed.

(** C4 (amended): for a call on a registered session whose record the
    store reports, the response is 200 with the bare success marker
    whenever the transport has [receiveMessage] and it returns, whatever it
    returns; without [receiveMessage], when [handlePostMessage] returns and
    the last status it set (200 if none) is one a response with a body can
    carry (200..599 other than 204, 205 and 304), the response has that
    status and carries the last body sent through the mock response, as a
    JSON string, or the bare success marker if that is empty. *)
Theorem POST_success_response f req w sid t e :
  searchParams_sessionId req = Some sid -> sid <> "" ->
  fail_exists f = false -> store w !! session_key sid = Some e ->
  activeTransports w !! sid = Some t ->
  (forall receive result,
     receiveMessage t = Some receive -> receive (text req) = Returned result ->
     fst (POST f req w) = json success 200) /\
  (forall calls,
     receiveMessage t = None -> handlePostMessage t (text req) = (calls, Returned tt) ->
     (200 <= fst (mockRes calls) <= 599)%Z ->
     fst (mockRes calls) <> 204%Z -> fst (mockRes calls) <> 205%Z ->
     fst (mockRes calls) <> 304%Z ->
     fst (POST f req w) =
       json (if decide (snd (mockRes calls) = "") then success else JStr (snd (mockRes calls)))
            (fst (mockRes calls))).
Proof.
  intros Hsid Hne Hex He Hreg.
  destruct (POST_registered f req w sid t e Hsid Hne Hex He Hreg)
    as (w2 & _ & -> & _).
  split.
  - intros receive result Hr Hres. unfold forward. by rewrite Hr, Hres.
  - intros calls Hr Hh Hs H1 H2 H3. unfold forward. rewrite Hr, Hh. simpl.
    by rewrite NextResponse_json_accepts.
Qed.

Lemma POST_success_response_witness :
  fst (POST no_faults (Scenario.ping "S1") Scenario.instance) = json success 200 /\
  fst (POST no_faults (Scenario.ping "S4") Scenario.instance) = json (JStr "Accepted") 202.
Proof.
  split.
  - refine (proj1 (POST_success_response no_faults (Scenario.ping "S1") Scenario.instance
                     "S1" Scenario.answering (Scenario.active 3600) _ _ _ _ _)
                  (fun _ => Returned Scenario.pong) Scenario.pong _ _);
      first [reflexivity | discriminate].
  - refine (proj2 (POST_success_response no_faults (Scenario.ping "S4") Scenario.instance
                     "S4" Scenario.legacy (Scenario.active 3600) _ _ _ _ _)
                  [ResStatus 202; ResSend "Accepted"] _ _ _ _ _ _);
      first [reflexivity | discriminate | (vm_compute; split; discriminate)].
Defined.

(** *** The refresh *)

(** Whether the refresh is rejected never shows in the response. *)
Lemma POST_response_refresh f (b : bool) req w :
  fst (POST (with_fail_expire b f) req w) = fst (POST f req w).
Proof.
  destruct (searchParams_sessionId req) as [sid|] eqn:Hsid;
    [|unfold POST; by rewrite Hsid].
  destruct (decide (sid = "")) as [->|Hne]; [unfold POST; by rewrite Hsid|].
  destruct (fail_exists f) eqn:Hex.
  { unfold POST, redis_exists. rewrite Hsid. simpl. rewrite Hex.
    by destruct (decide (sid = "")). }
  destruct (store w !! session_key sid) as [e|] eqn:He.
  - destruct (POST_checked f req w sid e Hsid Hne Hex He)
      as (w2 & _ & _ & _ & _ & _ & ->).
    destruct (POST_checked (with_fail_expire b f) req w sid e Hsid Hne Hex He)
      as (w2' & _ & _ & _ & _ & _ & ->).
    destruct (get (activeTransports w) sid) as [|t|name]; [done|..].
    + pose proof (response_forward sid (Own t) req w2 w2') as Hr.
      destruct (forward sid (Own t) req w2) as [[] ?],
               (forward sid (Own t) req w2') as [[] ?]; simpl in *; congruence.
    + pose proof (response_forward sid (Inherited name) req w2 w2') as Hr.
      destruct (forward sid (Inherited name) req w2) as [[] ?],
               (forward sid (Inherited name) req w2') as [[] ?]; simpl in *; congruence.
  - pose proof (POST_session_expired_any f req w sid Hsid Hne Hex He) as ->.
    by rewrite (POST_session_expired_any (with_fail_expire b f) req w sid Hsid Hne Hex He).
Qed.

(** A call answered with a 2xx status went through steps 1 to 4. *)
Lemma POST_success_inv f req w :
  (200 <= status (fst (POST f req w)) < 300)%Z ->
  exists sid e t,
    searchParams_sessionId req = Some sid /\ sid <> "" /\ fail_exists f = false /\
    store w !! session_key sid = Some e /\ activeTransports w !! sid = Some t.
Proof.
  intros Hst.
  destruct (searchParams_sessionId req) as [sid|] eqn:Hsid;
    [|unfold POST in Hst; rewrite Hsid in Hst; simpl in Hst; lia].
  destruct (decide (sid = "")) as [->|Hne];
    [unfold POST in Hst; rewrite Hsid in Hst; simpl in Hst; lia|].
  destruct (fail_exists f) eqn:Hex.
  { destruct (POST_store_error_any f req w sid Hsid Hne Hex) as [Hr _].
    rewrite Hr in Hst. simpl in Hst. lia. }
  destruct (store w !! session_key sid) as [e|] eqn:He.
  2: { rewrite (POST_session_expired_any f req w sid Hsid Hne Hex He) in Hst.
       simpl in Hst. lia. }
  destruct (POST_checked f req w sid e Hsid Hne Hex He)
    as (w2 & _ & _ & _ & _ & _ & HP).
  rewrite HP in Hst. unfold get in Hst.
  destruct (activeTransports w !! sid) as [t|] eqn:Hreg; [by exists sid, e, t|].
  destruct (inherited sid); simpl in Hst; lia.
Qed.

(** C5: every call that succeeds (a 2xx response) has issued
    [EXPIRE mcp_session:<sessionId> 3600]. When the command goes through,
    the record is left with a time-to-live of 3600 seconds; when it is
    rejected, the rejection is printed on the console and the store is
    untouched; in both cases the response is the same. *)
Theorem POST_refreshes_ttl f req w :
  (200 <= status (fst (POST f req w)) < 300)%Z ->
  exists sid e,
    searchParams_sessionId req = Some sid /\
    store w !! session_key sid = Some e /\
    RedisExpire (session_key sid) 3600 ∈ effects (snd (POST f req w)) /\
    (if fail_expire f
     then store (snd (POST f req w)) = store w /\
          refresh_error sid ∈ console (snd (POST f req w))
     else store (snd (POST f req w)) =
            <[session_key sid := {| value := value e; ttl := Some 3600%Z |}]> (store w)) /\
    (forall b : bool, fst (POST (with_fail_expire b f) req w) = fst (POST f req w)).
Proof.
  intros Hst.
  destruct (POST_success_inv f req w Hst) as (sid & e & t & Hsid & Hne & Hex & He & Hreg).
  destruct (POST_registered f req w sid t e Hsid Hne Hex He Hreg)
    as (w2 & Heff & _ & Hstore & Hsub & Hlog).
  exists sid, e. repeat split; auto.
  - apply Hsub. rewrite Heff, elem_of_app. right.
    apply list_elem_of_In. right. by left.
  - by destruct (fail_expire f).
  - intros b. apply POST_response_refresh.
Qed.

Lemma POST_refreshes_ttl_witness :
  exists sid e,
    searchParams_sessionId (Scenario.ping "S1") = Some sid /\
    store Scenario.instance !! session_key sid = Some e /\
    RedisExpire (session_key sid) 3600
      ∈ effects (snd (POST no_faults (Scenario.ping "S1") Scenario.instance)).
Proof.
  destruct (POST_refreshes_ttl no_faults (Scenario.ping "S1") Scenario.instance)
    as (sid & e & H1 & H2 & H3 & _).
  - split; vm_compute; [discriminate | reflexivity].
  - by exists sid, e.
Defined.

(** *** Handler failure *)

(** C6, as stated, fails: the handler of [S3] fails and the call returns
    the failure response, but the record of [S3], which had 120 seconds
    left, has 3600 after the call: the refresh was issued before the
    payload was forwarded. *)
Lemma POST_failure_refreshes_record :
  activeTransports Scenario.instance !! "S3" = Some Scenario.failing /\
  handler_fails Scenario.failing "ping" /\
  fst (POST no_faults (Scenario.ping "S3") Scenario.instance) =
    json (error "Failed to process message") 500 /\
  store Scenario.instance !! session_key "S3" = Some (Scenario.active 120) /\
  store (snd (POST no_faults (Scenario.ping "S3") Scenario.instance)) !! session_key "S3" =
    Some (Scenario.active 3600) /\
  store (snd (POST no_faults (Scenario.ping "S3") Scenario.instance)) !! session_key "S3" <>
    store Scenario.instance !! session_key "S3".
Proof.
  split; [reflexivity|]. split; [by eexists|]. split; [reflexivity|].
  split; [reflexivity|]. split; [reflexivity|]. vm_compute. discriminate.
Qed.

(** C6 (amended): when the inbound handler of a registered transport fails
    on a routed payload, [POST] returns 500 with [Failed to process message]
    and the session is not torn down: [activeTransports] is unchanged, no
    registry or store deletion is issued, and the record of the session is
    still in the store with its value; its time-to-live is the refreshed
    one, unless the refresh was rejected. *)
Theorem POST_handler_failure f req w sid t e :
  searchParams_sessionId req = Some sid -> sid <> "" ->
  fail_exists f = false -> store w !! session_key sid = Some e ->
  activeTransports w !! sid = Some t ->
  handler_fails t (text req) ->
  fst (POST f req w) = json (error "Failed to process message") 500 /\
  activeTransports (snd (POST f req w)) = activeTransports w /\
  store (snd (POST f req w)) =
    (if fail_expire f then store w
     else <[session_key sid :=
              {| value := value e; ttl := Some SESSION_EXPIRATION_SECONDS |}]> (store w)) /\
  value <$> store (snd (POST f req w)) !! session_key sid = Some (value e) /\
  exists forwarded,
    (forwarded = ReceiveMessage sid (text req) \/
     forwarded = HandlePostMessage sid (text req)) /\
    effects (snd (POST f req w)) =
      (effects w ++ [RedisExists (session_key sid);
                     RedisExpire (session_key sid) SESSION_EXPIRATION_SECONDS;
                     forwarded])%list.
Proof.
  intros Hsid Hne Hex He Hreg Hfail.
  split; [|split; [apply POST_registry|]].
  - destruct (POST_registered f req w sid t e Hsid Hne Hex He Hreg)
      as (w2 & _ & -> & _).
    unfold handler_fails in Hfail. unfold forward.
    destruct (receiveMessage t) as [receive|]; destruct Hfail as [err Herr].
    + by rewrite Herr.
    + destruct (handlePostMessage t (text req)) as [calls o].
      simpl in Herr. by subst o.
  - destruct (POST_registered f req w sid t e Hsid Hne Hex He Hreg)
      as (_ & _ & _ & Hstore & _).
    split; [exact Hstore|]. split.
    { rewrite Hstore. destruct (fail_expire f).
      - by rewrite He.
      - by rewrite lookup_insert_eq. }
    destruct (POST_checked f req w sid e Hsid Hne Hex He)
      as (w2 & _ & _ & Heff & _ & _ & ->).
    unfold get. rewrite Hreg.
    unfold handler_fails in Hfail. unfold forward.
    destruct (receiveMessage t) as [receive|]; destruct Hfail as [err Herr].
    + rewrite Herr. simpl. eexists. split; [by left|].
      by rewrite Heff, <- app_assoc.
    + destruct (handlePostMessage t (text req)) as [calls o].
      simpl in Herr. subst o. simpl. eexists. split; [by right|].
      by rewrite Heff, <- app_assoc.
Qed.

Lemma POST_handler_failure_witness :
  fst (POST no_faults (Scenario.ping "S3") Scenario.instance) =
    json (error "Failed to process message") 500 /\
  activeTransports (snd (POST no_faults (Scenario.ping "S3") Scenario.instance)) =
    activeTransports Scenario.instance.
Proof.
  destruct (POST_handler_failure no_faults (Scenario.ping "S3") Scenario.instance "S3"
              Scenario.failing (Scenario.active 120)) as (H1 & H2 & _).
  - reflexivity.
  - discriminate.
  - reflexivity.
  - reflexivity.
  - reflexivity.
  - by exists "handler failure".
  - by split.
Defined.

End Routing.

(** ** Stream open and teardown *)

Section Lifecycle.

Import Route.

Implicit Types (f : Faults) (w : World) (t : SSEServerTransport) (sid : string).

Lemma registry_register t w :
  activeTransports (register t w) = assign (sessionId t) t (activeTransports w).
Proof. reflexivity. Qed.

Lemma registry_onClose f t w :
  activeTransports (onClose f t w) = delete (sessionId t) (activeTransports w).
Proof. unfold onClose, redis_del. by destruct (fail_del f). Qed.

Lemma registry_GET f (connect : Completion unit) t w :
  activeTransports (snd (GET f connect t w)) =
    match connect with
    | Returned _ => assign (sessionId t) t (activeTransports w)
    | Thrown _ => delete (sessionId t) (assign (sessionId t) t (activeTransports w))
    end.
Proof.
  unfold GET, start, close, redis_set. simpl.
  destruct connect; [by destruct (fail_set f)|].
  rewrite registry_onClose. by destruct (fail_set f).
Qed.

Lemma assign_lookup_ne sid sid' t (o : gmap string SSEServerTransport) :
  sid <> sid' -> assign sid t o !! sid' = o !! sid'.
Proof.
  intros Hne. unfold assign. destruct (decide (sid = "__proto__")); [done|].
  by rewrite lookup_insert_ne.
Qed.

(** C7, as stated, fails: [S1] is bound to a transport, a second transport
    with the same id is registered, and the registry holds the second one;
    nothing fails. *)
Lemma register_replaces_binding :
  activeTransports Scenario.instance !! "S1" = Some Scenario.answering /\
  sessionId Scenario.rebound = "S1" /\
  activeTransports (register Scenario.rebound Scenario.instance) !! "S1" =
    Some Scenario.rebound /\
  Scenario.rebound <> Scenario.answering.
Proof. repeat split. discriminate. Qed.

(** C7 (amended): registering a transport stores the binding
    unconditionally. Whether or not the id was bound, the registry then
    maps the id to the new transport, every other binding is kept, and the
    only command issued is the assignment; there is no failure outcome.
    (The id [__proto__], which no generated session id is, would reach the
    inherited setter instead of creating a property.) *)
Theorem register_stores t w :
  sessionId t <> "__proto__" ->
  activeTransports (register t w) !! sessionId t = Some t /\
  get (activeTransports (register t w)) (sessionId t) = Own t /\
  (forall sid, sid <> sessionId t ->
     activeTransports (register t w) !! sid = activeTransports w !! sid) /\
  effects (register t w) = (effects w ++ [RegistryAssign (sessionId t)])%list /\
  store (register t w) = store w.
Proof.
  intros Hne. rewrite registry_register.
  assert (assign (sessionId t) t (activeTransports w) !! sessionId t = Some t) as Hl.
  { unfold assign. destruct (decide (sessionId t = "__proto__")); [done|].
    apply lookup_insert_eq. }
  repeat split; try done.
  - unfold get. by rewrite Hl.
  - intros sid Hsid. by apply assign_lookup_ne.
Qed.

Lemma register_stores_witness :
  activeTransports (register Scenario.rebound Scenario.instance) !! "S1" =
    Some Scenario.rebound.
Proof.
  apply (register_stores Scenario.rebound Scenario.instance). discriminate.
Defined.

(** C8: the teardown callback issues two commands, in this order: the
    removal of the binding from [activeTransports], then the deletion of
    the record from the store. The binding is gone afterwards whether or
    not the deletion is rejected; a rejected deletion is printed on the
    console and leaves the store as it was, an accepted one removes the
    record. Removing an id that is not bound changes nothing, so a second
    teardown leaves the registry as the first one left it. *)
Theorem onClose_teardown f t w :
  effects (onClose f t w) =
    (effects w ++ [RegistryDelete (sessionId t);
                   RedisDel (session_key (sessionId t))])%list /\
  activeTransports (onClose f t w) = delete (sessionId t) (activeTransports w) /\
  activeTransports (onClose f t w) !! sessionId t = None /\
  store (onClose f t w) =
    (if fail_del f then store w else delete (session_key (sessionId t)) (store w)) /\
  (if fail_del f
   then (LevelError, "Error deleting session " ++ sessionId t ++ " from Redis:")
          ∈ console (onClose f t w)
   else store (onClose f t w) !! session_key (sessionId t) = None) /\
  (activeTransports w !! sessionId t = None ->
     activeTransports (onClose f t w) = activeTransports w) /\
  (forall f', activeTransports (onClose f' t (onClose f t w)) =
              activeTransports (onClose f t w)).
Proof.
  rewrite registry_onClose.
  split; [|split; [done|split; [apply lookup_delete_eq|]]].
  { unfold onClose, redis_del. destruct (fail_del f); simpl; by rewrite <- app_assoc. }
  split; [|split; [|split]].
  - unfold onClose, redis_del. by destruct (fail_del f).
  - unfold onClose, redis_del. destruct (fail_del f); simpl.
    + rewrite !elem_of_app. right. by apply list_elem_of_singleton.
    + apply lookup_delete_eq.
  - apply delete_id.
  - intros f'. rewrite !registry_onClose. apply delete_delete_eq.
Qed.

(** C10: the call handler never changes [activeTransports], whatever the
    outcome of the call. Among the operations of the module, a binding
    that appears was added by a stream open for that id, and a binding
    that disappears was removed by the teardown callback for that id, run
    on its own or by the clean-up of a stream open whose connect failed. *)
Theorem POST_preserves_registry f (req : NextRequest) w :
  activeTransports (snd (POST f req w)) = activeTransports w /\
  (forall op sid,
     activeTransports w !! sid = None ->
     is_Some (activeTransports (run f op w) !! sid) ->
     exists connect t, op = StreamOpen connect t /\ sessionId t = sid) /\
  (forall op sid,
     is_Some (activeTransports w !! sid) ->
     activeTransports (run f op w) !! sid = None ->
     (exists t, op = Teardown t /\ sessionId t = sid) \/
     (exists err t, op = StreamOpen (Thrown err) t /\ sessionId t = sid)).
Proof.
  split; [apply POST_registry|]. split.
  - intros [connect t|req'|t] sid Hnone Hsome; cbn [run] in Hsome.
    + destruct (decide (sessionId t = sid)) as [<-|Hne]; [by eauto|].
      exfalso. rewrite registry_GET in Hsome. destruct connect.
      * rewrite assign_lookup_ne, Hnone in Hsome by done. by destruct Hsome.
      * rewrite lookup_delete_ne, assign_lookup_ne, Hnone in Hsome by done.
        by destruct Hsome.
    + rewrite POST_registry, Hnone in Hsome. by destruct Hsome.
    + rewrite registry_onClose in Hsome.
      apply lookup_delete_is_Some in Hsome as [_ Hsome].
      rewrite Hnone in Hsome. by destruct Hsome.
  - intros [connect t|req'|t] sid Hsome Hnone; cbn [run] in Hnone.
    + rewrite registry_GET in Hnone.
      destruct (decide (sessionId t = sid)) as [<-|Hne].
      * destruct connect as [|err]; [|by eauto].
        exfalso. unfold assign in Hnone.
        destruct (decide (sessionId t = "__proto__")).
        -- rewrite Hnone in Hsome. by destruct Hsome.
        -- by rewrite lookup_insert_eq in Hnone.
      * exfalso. destruct connect.
        -- rewrite assign_lookup_ne in Hnone by done.
           rewrite Hnone in Hsome. by destruct Hsome.
        -- rewrite lookup_delete_ne, assign_lookup_ne in Hnone by done.
           rewrite Hnone in Hsome. by destruct Hsome.
    + rewrite POST_registry in Hnone. rewrite Hnone in Hsome. by destruct Hsome.
    + rewrite registry_onClose in Hnone.
      apply lookup_delete_None in Hnone as [<-|Hnone]; [by eauto|].
      rewrite Hnone in Hsome. by destruct Hsome.
Qed.

End Lifecycle.

(** ** Further properties of the call handler *)

Section Calls.

Import Route.

Implicit Types (f : Faults) (req : NextRequest) (w : World)
               (t : SSEServerTransport) (sid : string).

Lemma append_cancel (p a b : string) : p ++ a = p ++ b -> a = b.
Proof.
  induction p as [|c p IH]; intros H; [exact H|].
  change (String c (p ++ a) = String c (p ++ b)) in H.
  apply IH. by injection H.
Qed.

Lemma session_key_inj sid sid' : session_key sid = session_key sid' -> sid = sid'.
Proof. apply append_cancel. Qed.

Lemma truthy_Some (v : option string) sid :
  truthy v = Some sid <-> v = Some sid /\ sid <> "".
Proof.
  unfold truthy. destruct v as [s|]; [|by split; [|intros []]].
  destruct (decide (s = "")) as [->|Hne]; split.
  - discriminate.
  - intros [[= <-] Hne]. done.
  - intros [= <-]. done.
  - intros [[= <-] _]. done.
Qed.

Lemma truthy_None (v : option string) :
  truthy v = None <-> v = None \/ v = Some "".
Proof.
  unfold truthy. destruct v as [s|]; [|by split; [left|]].
  destruct (decide (s = "")) as [->|Hne]; split.
  - by right.
  - done.
  - discriminate.
  - intros [|[= ->]]; done.
Qed.

Lemma NextResponse_json_Returned (b : Json) (s : Z) (r : Response) :
  NextResponse_json b s = Returned r ->
  r = json b (unsigned_short s) /\ (200 <= unsigned_short s <= 599)%Z /\
  unsigned_short s <> 204%Z /\ unsigned_short s <> 205%Z /\ unsigned_short s <> 304%Z.
Proof.
  unfold NextResponse_json. cbv zeta.
  destruct (Z.ltb_spec (unsigned_short s) 200), (Z.ltb_spec 599 (unsigned_short s));
    simpl; try discriminate.
  destruct (Z.eqb_spec (unsigned_short s) 204), (Z.eqb_spec (unsigned_short s) 205),
           (Z.eqb_spec (unsigned_short s) 304); simpl; try discriminate.
  intros [= <-]. repeat split; lia.
Qed.

(** What the forwarding step can answer. *)
Lemma forward_Returned sid (p : Property) req w (r : Response) :
  fst (forward sid p req w) = Returned r ->
  r = json success 200 \/
  exists t, p = Own t /\ receiveMessage t = None /\
    snd (handlePostMessage t (text req)) = Returned tt /\
    r = json (if decide (snd (mockRes (fst (handlePostMessage t (text req)))) = "")
              then success
              else JStr (snd (mockRes (fst (handlePostMessage t (text req))))))
             (unsigned_short (fst (mockRes (fst (handlePostMessage t (text req)))))) /\
    (200 <= status r <= 599)%Z.
Proof.
  unfold forward. destruct p as [|t|name]; try discriminate.
  destruct (receiveMessage t) as [receive|] eqn:Hr.
  - destruct (receive (text req)); simpl; [|discriminate].
    intros [= <-]. by left.
  - destruct (handlePostMessage t (text req)) as [calls [[]|]] eqn:Hh; simpl;
      [|discriminate].
    intros H. apply NextResponse_json_Returned in H as (-> & Hs & _).
    right. exists t. rewrite Hh. repeat split; simpl; try done; lia.
Qed.

Lemma POST_found f req w sid e :
  truthy (searchParams_sessionId req) = Some sid ->
  fail_exists f = false -> store w !! session_key sid = Some e ->
  exists w2,
    store w2 =
      (if fail_expire f then store w
       else <[session_key sid :=
                {| value := value e; ttl := Some SESSION_EXPIRATION_SECONDS |}]> (store w)) /\
    effects w2 =
      (effects w ++ [RedisExists (session_key sid);
                     RedisExpire (session_key sid) SESSION_EXPIRATION_SECONDS])%list /\
    POST f req w =
      match get (activeTransports w) sid with
      | Undefined =>
          (json (error "Transport not found for session ID. Please reconnect.") 400,
           console_error ("Transport not found in memory for Session ID " ++ sid ++
                          ". Possible instance mismatch.") w2)
      | transport =>
          match forward sid transport req w2 with
          | (Returned response, w3) => (response, w3)
          | (Thrown _, w3) =>
              (json (error "Failed to process message") 500,
               console_error ("Error processing POST message for session " ++ sid ++ ":") w3)
          end
      end.
Proof.
  intros [Hsid Hne]%truthy_Some Hex He.
  destruct (POST_checked f req w sid e Hsid Hne Hex He)
    as (w2 & _ & Hst & Heff & _ & _ & HP).
  by exists w2.
Qed.

Lemma POST_expired_world f req w sid :
  truthy (searchParams_sessionId req) = Some sid ->
  fail_exists f = false -> store w !! session_key sid = None ->
  store (snd (POST f req w)) = store w /\
  effects (snd (POST f req w)) = (effects w ++ [RedisExists (session_key sid)])%list.
Proof.
  intros Ht Hex He. unfold POST. rewrite Ht.
  by rewrite redis_exists_missing.
Qed.

Lemma POST_failed_check_world f req w sid :
  truthy (searchParams_sessionId req) = Some sid -> fail_exists f = true ->
  store (snd (POST f req w)) = store w /\
  effects (snd (POST f req w)) = (effects w ++ [RedisExists (session_key sid)])%list.
Proof.
  intros [Hsid Hne]%truthy_Some Hex.
  destruct (POST_store_error_any f req w sid Hsid Hne Hex) as [_ ->]. done.
Qed.

(** The store after a call: as before, or with the record of the session
    refreshed. *)
Lemma POST_store f req w :
  store (snd (POST f req w)) = store w \/
  exists sid e,
    truthy (searchParams_sessionId req) = Some sid /\
    store w !! session_key sid = Some e /\
    store (snd (POST f req w)) =
      <[session_key sid :=
          {| value := value e; ttl := Some SESSION_EXPIRATION_SECONDS |}]> (store w).
Proof.
  destruct (truthy (searchParams_sessionId req)) as [sid|] eqn:Ht;
    [|left; unfold POST; by rewrite Ht].
  destruct (fail_exists f) eqn:Hex;
    [left; by apply (POST_failed_check_world f req w sid)|].
  destruct (store w !! session_key sid) as [e|] eqn:He;
    [|left; by apply (POST_expired_world f req w sid)].
  destruct (POST_found f req w sid e Ht Hex He) as (w2 & Hst & _ & ->).
  assert (forall p, store (snd (match forward sid p req w2 with
            | (Returned response, w3) => (response, w3)
            | (Thrown _, w3) =>
                (json (error "Failed to process message") 500,
                 console_error ("Error processing POST message for session " ++ sid ++ ":") w3)
            end)) = store w2) as Hfw.
  { intros p. pose proof (store_forward sid p req w2) as Hs.
    by destruct (forward sid p req w2) as [[] ?]. }
  assert (store (snd (match get (activeTransports w) sid with
            | Undefined =>
                (json (error "Transport not found for session ID. Please reconnect.") 400,
                 console_error ("Transport not found in memory for Session ID " ++ sid ++
                                ". Possible instance mismatch.") w2)
            | transport =>
                match forward sid transport req w2 with
                | (Returned response, w3) => (response, w3)
                | (Thrown _, w3) =>
                    (json (error "Failed to process message") 500,
                     console_error
                       ("Error processing POST message for session " ++ sid ++ ":") w3)
                end
            end)) = store w2) as ->.
  { destruct (get (activeTransports w) sid); [done|apply Hfw..]. }
  rewrite Hst. destruct (fail_expire f); [by left|]. right. by exists sid, e.
Qed.

(** A call that names a session is never answered [Missing sessionId]. *)
Lemma POST_supplied f req w sid :
  truthy (searchParams_sessionId req) = Some sid ->
  fst (POST f req w) <> json (error "Missing sessionId") 400.
Proof.
  intros Ht. pose proof Ht as [Hsid Hne]%truthy_Some.
  destruct (fail_exists f) eqn:Hex.
  { by destruct (POST_store_error_any f req w sid Hsid Hne Hex) as [-> _]. }
  destruct (store w !! session_key sid) as [e|] eqn:He.
  2: { by rewrite (POST_session_expired_any f req w sid Hsid Hne Hex He). }
  destruct (POST_found f req w sid e Ht Hex He) as (w2 & _ & _ & ->).
  assert (forall p, fst (match forward sid p req w2 with
            | (Returned response, w3) => (response, w3)
            | (Thrown _, w3) =>
                (json (error "Failed to process message") 500,
                 console_error ("Error processing POST message for session " ++ sid ++ ":") w3)
            end) <> json (error "Missing sessionId") 400) as Hfw.
  { intros p. pose proof (forward_Returned sid p req w2) as Hf.
    destruct (forward sid p req w2) as [[r|err] w3]; simpl in *; [|discriminate].
    destruct (Hf r eq_refl) as [->|(t & _ & _ & _ & -> & _)]; [discriminate|].
    destruct (decide _); discriminate. }
  destruct (get (activeTransports w) sid); [discriminate|apply Hfw..].
Qed.

(** The keys of the store are the same after a call. *)
Lemma POST_store_keys f req w key :
  is_Some (store (snd (POST f req w)) !! key) <-> is_Some (store w !! key).
Proof.
  destruct (POST_store f req w) as [->|(sid & e & _ & He & ->)]; [done|].
  rewrite lookup_insert_is_Some'. split; [|by right].
  intros [<-|H]; [by rewrite He|done].
Qed.

(** X1: the complete table of what a call is answered. Every response of
    [POST] is one of the five literal error responses, each under its own
    condition, the bare success marker, or, for a registered transport
    without [receiveMessage] whose [handlePostMessage] returned, the body the
    mock response recorded under the status it recorded, converted to an
    [unsigned short]; its status is always within 200..599. *)
Theorem POST_responses f req w :
  ((truthy (searchParams_sessionId req) = None /\
    fst (POST f req w) = json (error "Missing sessionId") 400) \/
   (exists sid, truthy (searchParams_sessionId req) = Some sid /\
      ((fail_exists f = true /\
        fst (POST f req w) = json (error "Internal server error checking session") 500) \/
       (fail_exists f = false /\ store w !! session_key sid = None /\
        fst (POST f req w) = json (error "Invalid or expired session ID") 400) \/
       (fail_exists f = false /\ is_Some (store w !! session_key sid) /\
        get (activeTransports w) sid = Undefined /\
        fst (POST f req w) =
          json (error "Transport not found for session ID. Please reconnect.") 400) \/
       (fail_exists f = false /\ is_Some (store w !! session_key sid) /\
        get (activeTransports w) sid <> Undefined /\
        (fst (POST f req w) = json (error "Failed to process message") 500 \/
         fst (POST f req w) = json success 200 \/
         exists t, activeTransports w !! sid = Some t /\ receiveMessage t = None /\
           snd (handlePostMessage t (text req)) = Returned tt /\
           fst (POST f req w) =
             json (if decide (snd (mockRes (fst (handlePostMessage t (text req)))) = "")
                   then success
                   else JStr (snd (mockRes (fst (handlePostMessage t (text req))))))
                  (unsigned_short
                     (fst (mockRes (fst (handlePostMessage t (text req))))))))))) /\
  (200 <= status (fst (POST f req w)) <= 599)%Z.
Proof.
  destruct (truthy (searchParams_sessionId req)) as [sid|] eqn:Ht.
  2: { unfold POST. rewrite Ht. simpl. split; [by left|lia]. }
  pose proof Ht as [Hsid Hne]%truthy_Some.
  destruct (fail_exists f) eqn:Hex.
  { destruct (POST_store_error_any f req w sid Hsid Hne Hex) as [-> _].
    simpl. split; [|lia]. right. exists sid. split; [done|]. by left. }
  destruct (store w !! session_key sid) as [e|] eqn:He.
  2: { rewrite (POST_session_expired_any f req w sid Hsid Hne Hex He).
       simpl. split; [|lia]. right. exists sid. split; [done|]. right. by left. }
  destruct (POST_found f req w sid e Ht Hex He) as (w2 & _ & _ & ->).
  destruct (get (activeTransports w) sid) as [|t|name] eqn:Hget.
  { simpl. split; [|lia]. right. exists sid. split; [done|].
    do 2 right. left. by rewrite He. }
  - pose proof (forward_Returned sid (Own t) req w2) as Hf.
    destruct (forward sid (Own t) req w2) as [[r|err] w3]; simpl in *.
    + destruct (Hf r eq_refl) as [->|(t' & [= <-] & Hr & Hh & -> & Hs)].
      * simpl. split; [|lia]. right. exists sid. split; [done|].
        do 3 right. rewrite He. repeat split; eauto; try (rewrite Hget; discriminate).
      * split; [|exact Hs]. right. exists sid. split; [done|].
        do 3 right. rewrite He. repeat split; eauto; try (rewrite Hget; discriminate).
        do 2 right. exists t. repeat split; try done.
        unfold get in Hget. by destruct (activeTransports w !! sid) as [t'|];
          [injection Hget as ->|destruct (inherited sid)].
    + split; [|lia]. right. exists sid. split; [done|].
      do 3 right. rewrite He. repeat split; eauto; try (rewrite Hget; discriminate).
  - split; [simpl|simpl; lia]. right. exists sid. split; [done|].
    do 3 right. rewrite He. repeat split; eauto; try (rewrite Hget; discriminate).
Qed.

(** X2: [POST] answers [Missing sessionId] exactly when the request has no
    [sessionId] parameter or an empty one; such a call issues no command to
    the store and forwards nothing, and leaves store and registry as they
    were. *)
Theorem POST_missing_sessionId f req w :
  (searchParams_sessionId req = None \/ searchParams_sessionId req = Some "" <->
   fst (POST f req w) = json (error "Missing sessionId") 400) /\
  (searchParams_sessionId req = None \/ searchParams_sessionId req = Some "" ->
   effects (snd (POST f req w)) = effects w /\
   store (snd (POST f req w)) = store w /\
   activeTransports (snd (POST f req w)) = activeTransports w).
Proof.
  split; [split|].
  - intros Ht%truthy_None. unfold POST. by rewrite Ht.
  - intros Hr. apply truthy_None.
    destruct (truthy (searchParams_sessionId req)) as [sid|] eqn:Ht; [|done].
    by destruct (POST_supplied f req w sid Ht).
  - intros Ht%truthy_None. unfold POST. by rewrite Ht.
Qed.

(** X3: a call neither creates nor deletes a record of the store and never
    changes a value: the keys and values are the same after any call, and a
    record other than the one of the session named in the request is left
    exactly as it was, time-to-live included. *)
Theorem POST_store_frame f req w :
  (forall key, value <$> store (snd (POST f req w)) !! key = value <$> store w !! key) /\
  (forall key,
     (forall sid, truthy (searchParams_sessionId req) = Some sid -> key <> session_key sid) ->
     store (snd (POST f req w)) !! key = store w !! key).
Proof.
  destruct (POST_store f req w) as [->|(sid & e & Ht & He & ->)]; [done|].
  split.
  - intros key. destruct (decide (key = session_key sid)) as [->|Hne].
    + by rewrite lookup_insert_eq, He.
    + by rewrite lookup_insert_ne.
  - intros key Hkey. rewrite lookup_insert_ne; [done|].
    intros <-. by apply (Hkey sid).
Qed.

(** The commands of one call. *)
Lemma POST_effects f req w :
  exists issued,
    effects (snd (POST f req w)) = (effects w ++ issued)%list /\
    (issued = [] \/
     exists sid,
       truthy (searchParams_sessionId req) = Some sid /\
       (issued = [RedisExists (session_key sid)] \/
        issued = [RedisExists (session_key sid);
                  RedisExpire (session_key sid) SESSION_EXPIRATION_SECONDS] \/
        issued = [RedisExists (session_key sid);
                  RedisExpire (session_key sid) SESSION_EXPIRATION_SECONDS;
                  ReceiveMessage sid (text req)] \/
        issued = [RedisExists (session_key sid);
                  RedisExpire (session_key sid) SESSION_EXPIRATION_SECONDS;
                  HandlePostMessage sid (text req)])).
Proof.
  destruct (truthy (searchParams_sessionId req)) as [sid|] eqn:Ht.
  2: { exists []. unfold POST. rewrite Ht. simpl. by rewrite app_nil_r; auto. }
  destruct (fail_exists f) eqn:Hex.
  { destruct (POST_failed_check_world f req w sid Ht Hex) as [_ ->]. eauto 8. }
  destruct (store w !! session_key sid) as [e|] eqn:He.
  2: { destruct (POST_expired_world f req w sid Ht Hex He) as [_ ->]. eauto 8. }
  destruct (POST_found f req w sid e Ht Hex He) as (w2 & _ & Heff & ->).
  destruct (get (activeTransports w) sid) as [|t|name]; simpl.
  - rewrite Heff. eauto 8.
  - unfold forward. destruct (receiveMessage t) as [receive|].
    + destruct (receive (text req)); simpl; rewrite Heff, <- app_assoc; simpl; eauto 10.
    + destruct (handlePostMessage t (text req)) as [calls [[]|]]; simpl.
      * destruct (NextResponse_json _ _); simpl; rewrite Heff, <- app_assoc; simpl;
          eauto 10.
      * rewrite Heff, <- app_assoc; simpl; eauto 10.
  - rewrite Heff. eauto 8.
Qed.

(** X4: one call issues at most three commands, in this order: the
    existence check, the refresh, and the hand-over of the request body to
    the transport of the session it names. It never writes or deletes a
    record, never touches the registry and never connects a transport. *)
Theorem POST_commands f req w :
  exists issued,
    effects (snd (POST f req w)) = (effects w ++ issued)%list /\
    (length issued <= 3)%nat /\
    forall e, e ∈ issued ->
      exists sid, truthy (searchParams_sessionId req) = Some sid /\
        (e = RedisExists (session_key sid) \/
         e = RedisExpire (session_key sid) SESSION_EXPIRATION_SECONDS \/
         e = ReceiveMessage sid (text req) \/
         e = HandlePostMessage sid (text req)).
Proof.
  destruct (POST_effects f req w) as (issued & Heff & Hc).
  exists issued. split; [exact Heff|].
  destruct Hc as [->|(sid & Ht & Hc)].
  { split; [simpl; lia|]. intros e He%list_elem_of_In. destruct He. }
  destruct Hc as [-> | [-> | [-> | ->]]]; (split; [simpl; lia|]);
    intros e He%list_elem_of_In; simpl in He; exists sid; (split; [done|]);
    intuition (subst; auto).
Qed.



(** *** The mock response of the fallback *)

(** The status is converted before it is tested: 65736 is 200 modulo 2^16,
    so [res.status(65736).send("x")] is answered 200. *)
Remark NextResponse_json_wraps :
  NextResponse_json (JStr "x") 65736 = Returned (json (JStr "x") 200).
Proof. reflexivity. Qed.

Lemma mockRes_app (calls more : list MockCall) :
  mockRes (calls ++ more)%list =
    fold_left
      (fun acc c =>
         match c with
         | ResStatus code => (code, snd acc)
         | ResSend b => (fst acc, b)
         | ResEnd => acc
         end)
      more (mockRes calls).
Proof. unfold mockRes. apply fold_left_app. Qed.

Lemma mockRes_no_body_from (calls : list MockCall) (acc : Z * string) :
  (forall b, ResSend b ∈ calls -> b = "") -> snd acc = "" ->
  snd (fold_left
         (fun acc c =>
            match c with
            | ResStatus code => (code, snd acc)
            | ResSend b => (fst acc, b)
            | ResEnd => acc
            end)
         calls acc) = "".
Proof.
  revert acc. induction calls as [|c calls IH]; intros acc Hb Hacc; [exact Hacc|].
  simpl. apply IH.
  - intros b Hin. apply Hb. by right.
  - destruct c as [code|b|]; simpl; [exact Hacc| |exact Hacc].
    apply Hb. by left.
Qed.

Lemma NextResponse_json_invalid (b : Json) (s : Z) :
  (unsigned_short s < 200 \/ 599 < unsigned_short s \/ unsigned_short s = 204 \/
   unsigned_short s = 205 \/ unsigned_short s = 304)%Z ->
  exists err, NextResponse_json b s = Thrown err.
Proof.
  intros Hs. unfold NextResponse_json. cbv zeta.
  destruct (Z.ltb_spec (unsigned_short s) 200), (Z.ltb_spec 599 (unsigned_short s));
    simpl; eauto.
  destruct (Z.eqb_spec (unsigned_short s) 204), (Z.eqb_spec (unsigned_short s) 205),
           (Z.eqb_spec (unsigned_short s) 304); simpl; eauto.
  lia.
Qed.

(** The response of a call that reaches a transport without [receiveMessage]
    whose [handlePostMessage] returns. *)
Lemma POST_fallback f req w sid t e calls :
  searchParams_sessionId req = Some sid -> sid <> "" ->
  fail_exists f = false -> store w !! session_key sid = Some e ->
  activeTransports w !! sid = Some t ->
  receiveMessage t = None -> handlePostMessage t (text req) = (calls, Returned tt) ->
  fst (POST f req w) =
    try_catch
      (NextResponse_json
         (if decide (snd (mockRes calls) = "") then success else JStr (snd (mockRes calls)))
         (fst (mockRes calls)))
      (fun _ => json (error "Failed to process message") 500).
Proof.
  intros Hsid Hne Hex He Hreg Hr Hh.
  destruct (POST_registered f req w sid t e Hsid Hne Hex He Hreg) as (w2 & _ & -> & _).
  unfold forward. by rewrite Hr, Hh.
Qed.

(** X6: on the fallback, the last calls on the mock response decide: when
    the handler finishes with [res.status(code).send(body)], a non-empty body
    and a status a response can carry, the call is answered with that status
    and that body as a JSON string, whatever the handler had set before. *)
Theorem POST_fallback_last_call f req w sid t e (earlier : list MockCall)
    (code : Z) (sent : string) :
  searchParams_sessionId req = Some sid -> sid <> "" ->
  fail_exists f = false -> store w !! session_key sid = Some e ->
  activeTransports w !! sid = Some t ->
  receiveMessage t = None ->
  handlePostMessage t (text req) =
    ((earlier ++ [ResStatus code; ResSend sent])%list, Returned tt) ->
  sent <> "" ->
  (200 <= code <= 599)%Z -> code <> 204%Z -> code <> 205%Z -> code <> 304%Z ->
  fst (POST f req w) = json (JStr sent) code.
Proof.
  intros Hsid Hne Hex He Hreg Hr Hh Hsent Hc H1 H2 H3.
  rewrite (POST_fallback f req w sid t e _ Hsid Hne Hex He Hreg Hr Hh).
  rewrite mockRes_app. simpl.
  destruct (decide (sent = "")); [done|].
  by rewrite NextResponse_json_accepts.
Qed.

Lemma POST_fallback_last_call_witness :
  fst (POST no_faults (Scenario.ping "S4") Scenario.fallbacks) = json (JStr "Accepted") 202.
Proof.
  apply (POST_fallback_last_call no_faults (Scenario.ping "S4") Scenario.fallbacks "S4"
           Scenario.legacy (Scenario.active 3600) []);
    first [reflexivity | discriminate | lia].
Defined.

(** X7: on the fallback, a handler that returns without sending a non-empty
    body is answered with the bare success marker, under the status it set
    when that is one a response with a body can carry (200..599 other than
    204, 205 and 304): [res.status(404).end()] yields 404 with
    [{"success":true}]. *)
Theorem POST_fallback_no_body f req w sid t e calls :
  searchParams_sessionId req = Some sid -> sid <> "" ->
  fail_exists f = false -> store w !! session_key sid = Some e ->
  activeTransports w !! sid = Some t ->
  receiveMessage t = None -> handlePostMessage t (text req) = (calls, Returned tt) ->
  (forall b, ResSend b ∈ calls -> b = "") ->
  (200 <= fst (mockRes calls) <= 599)%Z ->
  fst (mockRes calls) <> 204%Z -> fst (mockRes calls) <> 205%Z ->
  fst (mockRes calls) <> 304%Z ->
  fst (POST f req w) = json success (fst (mockRes calls)).
Proof.
  intros Hsid Hne Hex He Hreg Hr Hh Hb Hc H1 H2 H3.
  rewrite (POST_fallback f req w sid t e _ Hsid Hne Hex He Hreg Hr Hh).
  assert (snd (mockRes calls) = "") as -> by (by apply mockRes_no_body_from).
  simpl. by rewrite NextResponse_json_accepts.
Qed.

Lemma POST_fallback_no_body_witness :
  fst (POST no_faults (Scenario.ping "S5") Scenario.fallbacks) = json success 404.
Proof.
  apply (POST_fallback_no_body no_faults (Scenario.ping "S5") Scenario.fallbacks "S5"
           Scenario.silent (Scenario.active 3600) [ResStatus 404; ResEnd]);
    try first [reflexivity | discriminate | (vm_compute; lia)].
  - intros b Hin. apply list_elem_of_In in Hin. simpl in Hin.
    destruct Hin as [Hin|[Hin|[]]]; discriminate Hin.
  - vm_compute. split; discriminate.
Defined.

(** X8: on the fallback, a handler that returns after setting a status
    that, once converted to an [unsigned short], no response with a body can
    carry (below 200, above 599, or 204, 205, 304) is answered 500
    [Failed to process message]: building the response throws inside the
    [try] block. *)
Theorem POST_fallback_bad_status f req w sid t e calls :
  searchParams_sessionId req = Some sid -> sid <> "" ->
  fail_exists f = false -> store w !! session_key sid = Some e ->
  activeTransports w !! sid = Some t ->
  receiveMessage t = None -> handlePostMessage t (text req) = (calls, Returned tt) ->
  (unsigned_short (fst (mockRes calls)) < 200 \/
   599 < unsigned_short (fst (mockRes calls)) \/
   unsigned_short (fst (mockRes calls)) = 204 \/
   unsigned_short (fst (mockRes calls)) = 205 \/
   unsigned_short (fst (mockRes calls)) = 304)%Z ->
  fst (POST f req w) = json (error "Failed to process message") 500.
Proof.
  intros Hsid Hne Hex He Hreg Hr Hh Hc.
  rewrite (POST_fallback f req w sid t e _ Hsid Hne Hex He Hreg Hr Hh).
  destruct (NextResponse_json_invalid
              (if decide (snd (mockRes calls) = "") then success else JStr (snd (mockRes calls)))
              _ Hc) as [err ->].
  done.
Qed.

Lemma POST_fallback_bad_status_witness :
  fst (POST no_faults (Scenario.ping "S6") Scenario.fallbacks) =
    json (error "Failed to process message") 500.
Proof.
  apply (POST_fallback_bad_status no_faults (Scenario.ping "S6") Scenario.fallbacks "S6"
           Scenario.out_of_range (Scenario.active 3600) [ResStatus 99; ResSend "x"]);
    try first [reflexivity | discriminate].
  left. vm_compute. reflexivity.
Defined.

End Calls.

(** ** Further properties of the session lifecycle *)

Section Sessions.

Import Route.

Implicit Types (f : Faults) (req : NextRequest) (w : World)
               (t : SSEServerTransport) (sid : string).

Lemma store_onClose f t w :
  store (onClose f t w) =
    if fail_del f then store w else delete (session_key (sessionId t)) (store w).
Proof. unfold onClose, redis_del. by destruct (fail_del f). Qed.

Lemma effects_onClose f t w :
  effects (onClose f t w) =
    (effects w ++ [RegistryDelete (sessionId t); RedisDel (session_key (sessionId t))])%list.
Proof. unfold onClose, redis_del. destruct (fail_del f); simpl; by rewrite <- app_assoc. Qed.

(** The store after a stream open. *)
Lemma store_GET f (connect : Completion unit) t w :
  store (snd (GET f connect t w)) =
    let written :=
      if fail_set f then store w
      else <[session_key (sessionId t) :=
               {| value := "active"; ttl := Some SESSION_EXPIRATION_SECONDS |}]> (store w) in
    match connect with
    | Returned _ => written
    | Thrown _ =>
        if fail_del f then written else delete (session_key (sessionId t)) written
    end.
Proof.
  unfold GET, start, close, redis_set. simpl.
  destruct connect; [by destruct (fail_set f)|].
  rewrite store_onClose. by destruct (fail_set f), (fail_del f).
Qed.

Lemma assign_lookup_eq sid t (o : gmap string SSEServerTransport) :
  sid <> "__proto__" -> assign sid t o !! sid = Some t.
Proof.
  intros Hne. unfold assign. destruct (decide (sid = "__proto__")); [done|].
  apply lookup_insert_eq.
Qed.

(** X9: open, then call. After a stream open whose store write went through
    and whose connect resolved, a call that names the session of the new
    transport and whose existence check is answered passes both checks
    and hands its body over to that transport: the commands of the call are
    the check, the refresh and the hand-over, and a [receiveMessage] that
    returns is answered 200 with the success marker. *)
Theorem GET_then_POST f f' t req w :
  sessionId t <> "" -> sessionId t <> "__proto__" ->
  searchParams_sessionId req = Some (sessionId t) ->
  fail_set f = false -> fail_exists f' = false ->
  (exists forwarded,
     (forwarded = ReceiveMessage (sessionId t) (text req) \/
      forwarded = HandlePostMessage (sessionId t) (text req)) /\
     effects (snd (POST f' req (snd (GET f (Returned tt) t w)))) =
       (effects (snd (GET f (Returned tt) t w)) ++
        [RedisExists (session_key (sessionId t));
         RedisExpire (session_key (sessionId t)) SESSION_EXPIRATION_SECONDS;
         forwarded])%list) /\
  (forall receive result,
     receiveMessage t = Some receive -> receive (text req) = Returned result ->
     fst (POST f' req (snd (GET f (Returned tt) t w))) = json success 200).
Proof.
  intros Hne Hproto Hsid Hset Hex.
  set (w1 := snd (GET f (Returned tt) t w)).
  assert (activeTransports w1 !! sessionId t = Some t) as Hreg.
  { unfold w1. rewrite registry_GET. by apply assign_lookup_eq. }
  assert (store w1 !! session_key (sessionId t) =
          Some {| value := "active"; ttl := Some SESSION_EXPIRATION_SECONDS |}) as He.
  { unfold w1. rewrite store_GET, Hset. simpl. apply lookup_insert_eq. }
  destruct (POST_checked f' req w1 (sessionId t) _ Hsid Hne Hex He)
    as (w2 & _ & _ & Heff & _ & _ & ->).
  unfold get. rewrite Hreg. unfold forward. split.
  - destruct (receiveMessage t) as [receive|].
    + exists (ReceiveMessage (sessionId t) (text req)). split; [by left|].
      destruct (receive (text req)); simpl; by rewrite Heff, <- app_assoc.
    + exists (HandlePostMessage (sessionId t) (text req)). split; [by right|].
      destruct (handlePostMessage t (text req)) as [calls [[]|]]; simpl;
        [destruct (NextResponse_json _ _)|]; simpl; by rewrite Heff, <- app_assoc.
  - intros receive result Hr Hres. by rewrite Hr, Hres.
Qed.

Lemma GET_then_POST_witness :
  fst (POST no_faults (Scenario.ping "S1")
         (snd (GET no_faults (Returned tt) Scenario.answering Scenario.fresh))) =
    json success 200.
Proof.
  refine (proj2 (GET_then_POST no_faults no_faults Scenario.answering (Scenario.ping "S1")
                   Scenario.fresh _ _ _ _ _)
                (fun _ => Returned Scenario.pong) Scenario.pong _ _);
    first [reflexivity | discriminate].
Defined.

(** X10: teardown, then call. After the teardown callback of a transport has
    run, a call that names its session is never answered with a 2xx status
    and hands nothing over, whatever was rejected on the way; when the
    deletion went through and the store answers, the answer is the one of an
    expired session. *)
Theorem onClose_then_POST f f' t req w :
  searchParams_sessionId req = Some (sessionId t) ->
  (status (fst (POST f' req (onClose f t w))) = 400 \/
   status (fst (POST f' req (onClose f t w))) = 500)%Z /\
  (exists issued,
     effects (snd (POST f' req (onClose f t w))) = (effects (onClose f t w) ++ issued)%list /\
     forall e, e ∈ issued ->
       e = RedisExists (session_key (sessionId t)) \/
       e = RedisExpire (session_key (sessionId t)) SESSION_EXPIRATION_SECONDS) /\
  (fail_del f = false -> fail_exists f' = false -> sessionId t <> "" ->
   fst (POST f' req (onClose f t w)) = json (error "Invalid or expired session ID") 400).
Proof.
  intros Hsid. set (w1 := onClose f t w).
  assert (activeTransports w1 !! sessionId t = None) as Hreg.
  { unfold w1. rewrite registry_onClose. apply lookup_delete_eq. }
  split; [|split].
  - destruct (truthy (searchParams_sessionId req)) as [sid|] eqn:Ht.
    2: { unfold POST. rewrite Ht. by left. }
    pose proof Ht as [Hs Hne]%truthy_Some. rewrite Hsid in Hs. injection Hs as <-.
    destruct (fail_exists f') eqn:Hex.
    { destruct (POST_store_error_any f' req w1 _ Hsid Hne Hex) as [-> _]. by right. }
    destruct (store w1 !! session_key (sessionId t)) as [e|] eqn:He.
    2: { rewrite (POST_session_expired_any f' req w1 _ Hsid Hne Hex He). by left. }
    destruct (POST_found f' req w1 _ e Ht Hex He) as (w2 & _ & _ & ->).
    unfold get. rewrite Hreg.
    destruct (inherited (sessionId t)); [by right|by left].
  - destruct (truthy (searchParams_sessionId req)) as [sid|] eqn:Ht.
    2: { exists []. split; [|by intros e He%elem_of_nil].
         unfold POST. rewrite Ht. simpl. by rewrite app_nil_r. }
    pose proof Ht as [Hs Hne]%truthy_Some. rewrite Hsid in Hs. injection Hs as <-.
    destruct (fail_exists f') eqn:Hex.
    { destruct (POST_failed_check_world f' req w1 _ Ht Hex) as [_ ->].
      eexists. split; [done|]. intros e He%list_elem_of_singleton. by left. }
    destruct (store w1 !! session_key (sessionId t)) as [e|] eqn:He.
    2: { destruct (POST_expired_world f' req w1 _ Ht Hex He) as [_ ->].
         eexists. split; [done|]. intros e He'%list_elem_of_singleton. by left. }
    destruct (POST_found f' req w1 _ e Ht Hex He) as (w2 & _ & Heff & ->).
    exists [RedisExists (session_key (sessionId t));
            RedisExpire (session_key (sessionId t)) SESSION_EXPIRATION_SECONDS].
    split.
    + unfold get. rewrite Hreg. by destruct (inherited (sessionId t)).
    + intros x Hx%list_elem_of_In. simpl in Hx. intuition.
  - intros Hdel Hex Hne.
    apply (POST_session_expired_any f' req w1 (sessionId t)); try done.
    unfold w1. rewrite store_onClose, Hdel. apply lookup_delete_eq.
Qed.

Lemma onClose_then_POST_witness :
  fst (POST no_faults (Scenario.ping "S1")
         (onClose no_faults Scenario.answering Scenario.instance)) =
    json (error "Invalid or expired session ID") 400.
Proof.
  apply (onClose_then_POST no_faults no_faults Scenario.answering (Scenario.ping "S1")
           Scenario.instance);
    first [reflexivity | discriminate].
Defined.

(** X11: a stream open whose store write is rejected and whose connect
    resolves still registers the transport, but leaves no record: with no
    earlier record for the id, every call that names the session and whose
    existence check is answered is then answered as expired although the
    transport is open on this very instance. *)
Theorem GET_unrecorded f f' t req w :
  sessionId t <> "" -> sessionId t <> "__proto__" ->
  searchParams_sessionId req = Some (sessionId t) ->
  fail_set f = true -> store w !! session_key (sessionId t) = None ->
  fail_exists f' = false ->
  activeTransports (snd (GET f (Returned tt) t w)) !! sessionId t = Some t /\
  (LevelError, "Error storing session " ++ sessionId t ++ " in Redis:")
    ∈ console (snd (GET f (Returned tt) t w)) /\
  fst (POST f' req (snd (GET f (Returned tt) t w))) =
    json (error "Invalid or expired session ID") 400.
Proof.
  intros Hne Hproto Hsid Hset He Hex. split; [|split].
  - rewrite registry_GET. by apply assign_lookup_eq.
  - unfold GET, start, redis_set. rewrite Hset. simpl.
    rewrite !elem_of_app. left. right. by apply list_elem_of_singleton.
  - apply (POST_session_expired_any f' req _ (sessionId t)); try done.
    by rewrite store_GET, Hset.
Qed.

Lemma GET_unrecorded_witness :
  fst (POST no_faults (Scenario.ping "S1")
         (snd (GET Scenario.store_down (Returned tt) Scenario.answering Scenario.fresh))) =
    json (error "Invalid or expired session ID") 400.
Proof.
  apply (GET_unrecorded Scenario.store_down no_faults Scenario.answering
           (Scenario.ping "S1") Scenario.fresh);
    first [reflexivity | discriminate].
Defined.

(** *** Isolation and invariants *)

Lemma store_GET_other f (connect : Completion unit) t w key :
  key <> session_key (sessionId t) ->
  store (snd (GET f connect t w)) !! key = store w !! key.
Proof.
  intros Hne. rewrite store_GET. simpl.
  destruct connect, (fail_set f), (fail_del f);
    rewrite ?lookup_delete_ne, ?lookup_insert_ne; done.
Qed.

Lemma registry_GET_other f (connect : Completion unit) t w sid :
  sid <> sessionId t ->
  activeTransports (snd (GET f connect t w)) !! sid = activeTransports w !! sid.
Proof.
  intros Hne. rewrite registry_GET.
  destruct connect; rewrite ?lookup_delete_ne, ?assign_lookup_ne; done.
Qed.

(** X12: sessions are isolated from each other. An operation, whatever its
    outcome, leaves the binding and the record of every session other than
    the one it is about exactly as they were. *)
Theorem run_other_session f (op : Operation) w sid :
  operation_session op <> Some sid ->
  activeTransports (run f op w) !! sid = activeTransports w !! sid /\
  store (run f op w) !! session_key sid = store w !! session_key sid.
Proof.
  intros Hop. destruct op as [connect t|req|t]; cbn [run operation_session] in *.
  - assert (sid <> sessionId t) as Hne by congruence. split.
    + by apply registry_GET_other.
    + apply store_GET_other. by intros ?%session_key_inj.
  - split; [by rewrite POST_registry|].
    destruct (POST_store f req w) as [->|(sid' & e & Ht & _ & ->)]; [done|].
    apply lookup_insert_ne. intros ?%session_key_inj. congruence.
  - assert (sid <> sessionId t) as Hne by congruence. split.
    + rewrite registry_onClose. by apply lookup_delete_ne.
    + rewrite store_onClose. destruct (fail_del f); [done|].
      apply lookup_delete_ne. by intros ?%session_key_inj.
Qed.

Lemma run_other_session_witness :
  activeTransports (run no_faults (Teardown Scenario.answering) Scenario.instance) !! "S3" =
    activeTransports Scenario.instance !! "S3" /\
  store (run no_faults (Teardown Scenario.answering) Scenario.instance) !! session_key "S3" =
    store Scenario.instance !! session_key "S3".
Proof.
  apply (run_other_session no_faults (Teardown Scenario.answering) Scenario.instance "S3").
  discriminate.
Defined.

Lemma run_keyed_by_id f (op : Operation) w :
  keyed_by_id w -> keyed_by_id (run f op w).
Proof.
  intros Hk sid t' Hl. destruct op as [connect t|req|t]; cbn [run] in Hl.
  - destruct (decide (sid = sessionId t)) as [->|Hne].
    + rewrite registry_GET in Hl. unfold assign in Hl.
      destruct (decide (sessionId t = "__proto__")).
      * apply Hk. destruct connect; [done|].
        by apply lookup_delete_Some in Hl as [_ Hl].
      * destruct connect.
        -- rewrite lookup_insert_eq in Hl. by injection Hl as <-.
        -- by rewrite lookup_delete_eq in Hl.
    + rewrite registry_GET_other in Hl by done. by apply Hk.
  - rewrite POST_registry in Hl. by apply Hk.
  - rewrite registry_onClose in Hl. apply lookup_delete_Some in Hl as [_ Hl]. by apply Hk.
Qed.

(** X13: the registry is keyed by session id. From a registry in which
    every transport is filed under its own [sessionId] (the empty one, for
    instance), no sequence of stream opens, calls and teardowns, with any
    faults, leaves a transport filed under another id. *)
Theorem runs_keyed_by_id (ops : list (Faults * Operation)) w :
  keyed_by_id w -> keyed_by_id (runs ops w).
Proof.
  revert w. induction ops as [|[f op] ops IH]; intros w Hk; [exact Hk|].
  simpl. apply IH. by apply run_keyed_by_id.
Qed.

Lemma runs_keyed_by_id_witness :
  keyed_by_id
    (runs [(no_faults, StreamOpen (Returned tt) Scenario.answering);
           (no_faults, Call (Scenario.ping "S1"));
           (no_faults, Teardown Scenario.answering)] Scenario.fresh).
Proof.
  apply runs_keyed_by_id. intros sid t H. discriminate H.
Defined.

Lemma run_session_records f (op : Operation) w :
  session_records w -> session_records (run f op w).
Proof.
  intros Hs key e Hl.
  assert (forall t (m : gmap string RedisEntry),
            (forall k x, m !! k = Some x ->
               (exists sid, k = session_key sid) /\ value x = "active" /\
               ttl x = Some SESSION_EXPIRATION_SECONDS) ->
            forall k x,
              <[session_key (sessionId t) :=
                  {| value := "active"; ttl := Some SESSION_EXPIRATION_SECONDS |}]> m !! k
                = Some x ->
              (exists sid, k = session_key sid) /\ value x = "active" /\
              ttl x = Some SESSION_EXPIRATION_SECONDS) as Hins.
  { intros t m Hm k x Hx. apply lookup_insert_Some in Hx as [[<- <-]|[_ Hx]]; [|by eapply Hm].
    repeat split; eauto. }
  destruct op as [connect t|req|t]; cbn [run] in Hl.
  - rewrite store_GET in Hl. simpl in Hl.
    destruct connect, (fail_set f), (fail_del f);
      try apply lookup_delete_Some in Hl as [_ Hl]; eauto.
  - destruct (POST_store f req w) as [Heq|(sid & e0 & _ & He0 & Heq)];
      rewrite Heq in Hl; [by eapply Hs|].
    apply lookup_insert_Some in Hl as [[<- <-]|[_ Hl]]; [|by eapply Hs].
    destruct (Hs _ _ He0) as (_ & Hv & _). simpl. repeat split; eauto.
  - rewrite store_onClose in Hl.
    destruct (fail_del f); [|apply lookup_delete_Some in Hl as [_ Hl]]; by eapply Hs.
Qed.

(** X14: the module only ever leaves session records in the store. From a
    store that holds nothing but records [mcp_session:<id>] with the value
    [active] and 3600 seconds to live (the empty store, for instance), no
    sequence of stream opens, calls and teardowns, with any faults, leaves a
    record of another shape: never a record without expiry, never another
    value, never a key outside the prefix. *)
Theorem runs_session_records (ops : list (Faults * Operation)) w :
  session_records w -> session_records (runs ops w).
Proof.
  revert w. induction ops as [|[f op] ops IH]; intros w Hs; [exact Hs|].
  simpl. apply IH. by apply run_session_records.
Qed.

Lemma runs_session_records_witness :
  session_records
    (runs [(no_faults, StreamOpen (Returned tt) Scenario.answering);
           (no_faults, Call (Scenario.ping "S1"))] Scenario.fresh).
Proof.
  apply runs_session_records. intros key e H. discriminate H.
Defined.

Lemma run_registered_recorded f (op : Operation) w :
  fail_set f = false -> registered_recorded w -> registered_recorded (run f op w).
Proof.
  intros Hset Hr sid Hreg. destruct op as [connect t|req|t]; cbn [run] in *.
  - destruct (decide (sid = sessionId t)) as [->|Hne].
    + rewrite store_GET, Hset. rewrite registry_GET in Hreg.
      destruct connect; simpl.
      * rewrite lookup_insert_eq. eauto.
      * rewrite lookup_delete_eq in Hreg. by destruct Hreg.
    + rewrite registry_GET_other in Hreg by done.
      rewrite store_GET_other; [by apply Hr|]. by intros ?%session_key_inj.
  - rewrite POST_registry in Hreg. apply POST_store_keys. by apply Hr.
  - rewrite registry_onClose in Hreg.
    apply lookup_delete_is_Some in Hreg as [Hne Hreg].
    rewrite store_onClose. destruct (fail_del f); [by apply Hr|].
    rewrite lookup_delete_ne; [by apply Hr|]. by intros ?%session_key_inj.
Qed.

(** X15: as long as no store write is rejected (and no record expires,
    which the store model leaves out), every session registered on this
    instance has a record in the store, after any sequence of stream opens,
    calls and teardowns. *)
Theorem runs_registered_recorded (ops : list (Faults * Operation)) w :
  Forall (fun o => fail_set (fst o) = false) ops ->
  registered_recorded w -> registered_recorded (runs ops w).
Proof.
  revert w. induction ops as [|[f op] ops IH]; intros w Hf Hr; [exact Hr|].
  apply Forall_cons in Hf as [Hset Hf]. simpl.
  apply IH; [exact Hf|]. by apply run_registered_recorded.
Qed.

Lemma runs_registered_recorded_witness :
  registered_recorded
    (runs [(no_faults, StreamOpen (Returned tt) Scenario.answering);
           (no_faults, Call (Scenario.ping "S1"))] Scenario.fresh).
Proof.
  apply runs_registered_recorded.
  - repeat constructor.
  - intros sid [t H]. discriminate H.
Defined.

End Sessions.

(** ** The push channel *)

Section Stream.

Import Route.

Implicit Types (t : SSEServerTransport) (c : Controller) (w : World).

Lemma write_readable t chunk c w :
  readable c = true ->
  write t chunk c w = ({| queue := queue c ++ [chunk]; readable := true |}, w).
Proof. intros Hr. unfold write, enqueue. by rewrite Hr. Qed.

Lemma write_closed t chunk c w :
  readable c = false ->
  write t chunk c w =
    (c, console_error ("Error enqueueing SSE chunk for session " ++ sessionId t ++ ":") w).
Proof.
  intros Hr. unfold write, enqueue, try_close, controller_close. by rewrite Hr.
Qed.

(** X16: while the stream takes chunks, [write] delivers: the frames written
    are appended to the stream in the order written, none is dropped or
    duplicated, nothing is printed and the stream stays open. *)
Theorem write_all_delivers t (chunks : list string) c w :
  readable c = true ->
  write_all t chunks c w = ({| queue := queue c ++ chunks; readable := true |}, w).
Proof.
  unfold write_all. revert c. induction chunks as [|chunk chunks IH]; intros c Hr; simpl.
  - rewrite app_nil_r. by destruct c as [q []].
  - rewrite write_readable by done. rewrite IH by done. simpl.
    by rewrite <- app_assoc.
Qed.

Lemma write_all_delivers_witness :
  write_all Scenario.answering ["data: a"; "data: b"] Scenario.streaming Scenario.fresh =
    ({| queue := ["event: endpoint"; "data: a"; "data: b"]; readable := true |},
     Scenario.fresh).
Proof.
  apply (write_all_delivers Scenario.answering ["data: a"; "data: b"]
           Scenario.streaming Scenario.fresh).
  reflexivity.
Defined.

Lemma write_all_closed t (chunks : list string) c w :
  readable c = false ->
  fst (write_all t chunks c w) = c /\
  console (snd (write_all t chunks c w)) =
    (console w ++
     replicate (length chunks)
       (LevelError,
        ("Error enqueueing SSE chunk for session " ++ sessionId t ++ ":")%string))%list /\
  activeTransports (snd (write_all t chunks c w)) = activeTransports w /\
  store (snd (write_all t chunks c w)) = store w /\
  effects (snd (write_all t chunks c w)) = effects w.
Proof.
  intros Hr. unfold write_all. revert w.
  induction chunks as [|chunk chunks IH]; intros w; simpl.
  - by rewrite app_nil_r.
  - rewrite write_closed by done. simpl.
    destruct (IH (console_error
                    ("Error enqueueing SSE chunk for session " ++ sessionId t ++ ":") w))
      as (-> & -> & -> & -> & ->).
    simpl. by rewrite <- app_assoc.
Qed.

(** X17: [end] closes the stream and keeps what was delivered; it can be
    called again without effect on the stream. Every frame written after it
    is dropped: the stream is unchanged, one error is printed per frame, and
    the session is not torn down by the failed writes (registry and store
    are untouched, no command is issued). *)
Theorem write_after_end t (chunks : list string) c w :
  readable (fst (end_ t c w)) = false /\
  queue (fst (end_ t c w)) = queue c /\
  fst (end_ t (fst (end_ t c w)) (snd (end_ t c w))) = fst (end_ t c w) /\
  fst (write_all t chunks (fst (end_ t c w)) (snd (end_ t c w))) = fst (end_ t c w) /\
  console (snd (write_all t chunks (fst (end_ t c w)) (snd (end_ t c w)))) =
    (console w ++
     [(LevelLog, ("SSE stream ending for session " ++ sessionId t)%string)] ++
     replicate (length chunks)
       (LevelError,
        ("Error enqueueing SSE chunk for session " ++ sessionId t ++ ":")%string))%list /\
  activeTransports (snd (write_all t chunks (fst (end_ t c w)) (snd (end_ t c w)))) =
    activeTransports w /\
  store (snd (write_all t chunks (fst (end_ t c w)) (snd (end_ t c w)))) = store w /\
  effects (snd (write_all t chunks (fst (end_ t c w)) (snd (end_ t c w)))) = effects w.
Proof.
  assert (readable (fst (end_ t c w)) = false) as Hr.
  { unfold end_, try_close, controller_close. simpl. by destruct c as [q []]. }
  split; [exact Hr|]. split.
  { unfold end_, try_close, controller_close. simpl. by destruct c as [q []]. }
  split.
  { unfold end_, try_close, controller_close. simpl. by destruct c as [q []]. }
  destruct (write_all_closed t chunks _ (snd (end_ t c w)) Hr) as (-> & -> & -> & -> & ->).
  simpl. by rewrite <- app_assoc.
Qed.

End Stream.

(** ** Configuration and the echo handlers *)

Section Echo.

Import RedisClient.

(** X18: an empty [REDIS_URL] counts as unset: the client is created
    exactly when the variable holds a non-empty string, which is passed on
    unchanged, with three retries per request and a lazy connection; when
    TLS is on, certificates are verified exactly when [NODE_ENV] is
    [production]. *)
Theorem redis_options (env : gmap string string) :
  (redis env = Thrown not_set <->
   env !! "REDIS_URL" = None \/ env !! "REDIS_URL" = Some "") /\
  (forall options, redis env = Returned options ->
     env !! "REDIS_URL" = Some (url options) /\ url options <> "" /\
     maxRetriesPerRequest options = 3%Z /\ lazyConnect options = true /\
     forall tlsopt, tls options = Some tlsopt ->
       (rejectUnauthorized tlsopt = true <-> env !! "NODE_ENV" = Some "production")).
Proof.
  unfold redis. split.
  - rewrite <- truthy_None. by destruct (truthy (env !! "REDIS_URL")).
  - intros options Hr.
    destruct (truthy (env !! "REDIS_URL")) as [redisUrl|] eqn:Ht; [|discriminate Hr].
    apply truthy_Some in Ht as [Hu Hne]. injection Hr as <-. simpl.
    repeat split; try done.
    + unfold tlsOptions in H. destruct (_ || _); [|discriminate H].
      injection H as <-. simpl. intros Hb. by apply bool_decide_eq_true in Hb.
    + unfold tlsOptions in H. destruct (_ || _); [|discriminate H].
      injection H as <-. simpl. intros Hb. by apply bool_decide_eq_true.
Qed.

(** X19: the echo handlers give the message back unaltered after a fixed
    prefix, so the message can be read off the result: two calls of the
    tool, or of the prompt, with different messages have different results,
    and a resource read determines both the address and the message. *)
Theorem echo_faithful (message message' href href' : string) :
  (Server.echo_tool message = Server.echo_tool message' -> message = message') /\
  (Server.echo_prompt message = Server.echo_prompt message' -> message = message') /\
  (Server.echo_resource href message = Server.echo_resource href' message' ->
   href = href' /\ message = message').
Proof.
  unfold Server.echo_tool, Server.echo_prompt, Server.echo_resource.
  split; [|split].
  - intros [= H]. by apply append_cancel in H.
  - intros [= H]. by apply append_cancel in H.
  - intros [= -> H]. split; [done|]. by apply append_cancel in H.
Qed.

End Echo.
